(** * GithubIssueService: incremental issue synchronisation and crawl scheduling

    A shallow embedding of
    [server/polar/integrations/github/service/issue.py]:
    the upsert path ([store], [store_many]), the conditional fetch of one
    issue ([sync_issue]) and the two crawl queries
    ([list_issues_to_crawl_issue], [list_issues_to_crawl_timeline]).

    Timestamps are [Z] (microseconds, the resolution of Python's [datetime]);
    a nullable column is an [option].  The database is three tables keyed by
    primary key.  Effectful methods run in a small state-and-exception monad
    that also records the effects they perform, in order. *)

From stdpp Require Import gmap strings list fin_maps sorting pretty.

Local Open Scope Z_scope.

(** ** Data model *)

Module Organization.
Record t := mk {
  id : Z;
  name : string;
  installation_id : option Z;
  deleted_at : option Z
}.
End Organization.

Module Repository.
Record t := mk {
  id : Z;
  name : string;
  deleted_at : option Z
}.
End Repository.

Module Issue.
Record t := mk {
  id : Z;
  external_id : Z;
  organization_id : Z;
  repository_id : Z;
  number : Z;
  title : string;
  github_issue_etag : option string;
  github_issue_fetched_at : option Z;
  github_timeline_fetched_at : option Z;
  deleted_at : option Z
}.

(** Attribute assignments used by the service. *)
Definition set_github_issue_fetched_at (v : option Z) (i : t) : t :=
  mk (id i) (external_id i) (organization_id i) (repository_id i) (number i)
     (title i) (github_issue_etag i) v (github_timeline_fetched_at i)
     (deleted_at i).

Definition set_github_issue_etag (v : option string) (i : t) : t :=
  mk (id i) (external_id i) (organization_id i) (repository_id i) (number i)
     (title i) v (github_issue_fetched_at i) (github_timeline_fetched_at i)
     (deleted_at i).

Definition set_deleted_at (v : option Z) (i : t) : t :=
  mk (id i) (external_id i) (organization_id i) (repository_id i) (number i)
     (title i) (github_issue_etag i) (github_issue_fetched_at i)
     (github_timeline_fetched_at i) v.

(** The value a save leaves in column [col] of the stored [row]: the object's
    [current] value where it differs from the value the object was [loaded]
    with, the row's own value otherwise. *)
Definition written {A} `{EqDecision A} (col : t → A) (loaded current row : t) : A :=
  if decide (col current = col loaded) then col row else col current.

Definition flush (loaded current row : t) : t :=
  mk (written id loaded current row)
     (written external_id loaded current row)
     (written organization_id loaded current row)
     (written repository_id loaded current row)
     (written number loaded current row)
     (written title loaded current row)
     (written github_issue_etag loaded current row)
     (written github_issue_fetched_at loaded current row)
     (written github_timeline_fetched_at loaded current row)
     (written deleted_at loaded current row).
End Issue.

#[global] Instance Issue_eq_dec : EqDecision Issue.t.
Proof. solve_decision. Defined.

Record Db := mkDb {
  issues : gmap Z Issue.t;
  organizations : gmap Z Organization.t;
  repositories : gmap Z Repository.t
}.

Definition with_issues (tbl : gmap Z Issue.t) (db : Db) : Db :=
  mkDb tbl (organizations db) (repositories db).

(** ** The SQL fragment the crawl queries use *)

Module Sql.
Definition Row : Type := Issue.t * Organization.t * Repository.t.

(** [select(Issue).join(Issue.organization).join(Issue.repository)]: inner
    joins along the two foreign keys. *)
Definition select_join (db : Db) : list Row :=
  omap (λ i : Issue.t,
          o ← organizations db !! Issue.organization_id i;
          r ← repositories db !! Issue.repository_id i;
          Some (i, o, r))
       (map_to_list (issues db)).*2.

(** [col.is_(None)] and [col.is_not(None)]. *)
Definition is_null {A} (col : option A) : bool :=
  match col with None => true | Some _ => false end.
Definition is_not_null {A} (col : option A) : bool := negb (is_null col).

(** [col < v]: not true when [col] is NULL. *)
Definition lt (col : option Z) (v : Z) : bool :=
  match col with Some t => bool_decide (t < v) | None => false end.

(** [ORDER BY col ASC] on PostgreSQL ([polar.postgres]): ascending, and a
    NULL sorts as if larger than every non-null value, so NULLs come last
    (the query never asks for [nulls_first()]). *)
Definition asc (a b : option Z) : Prop :=
  match a, b with
  | Some x, Some y => x ≤ y
  | _, None => True
  | None, Some _ => False
  end.

#[global] Instance asc_dec a b : Decision (asc a b).
Proof. destruct a, b; simpl; apply _. Defined.

Definition by_key {A} (key : A → option Z) : relation A :=
  λ x y, asc (key x) (key y).

#[global] Instance by_key_dec {A} (key : A → option Z) x y :
  Decision (by_key key x y).
Proof. unfold by_key. apply _. Defined.

Definition order_by_asc {A} (key : A → option Z) (rows : list A) : list A :=
  merge_sort (by_key key) rows.

Definition limit {A} (n : nat) (rows : list A) : list A := take n rows.

(** [Result.scalars()]: the first entity of every row. *)
Definition scalars (rows : list Row) : list Issue.t := (λ row : Row, row.1.1) <$> rows.

(** [Result.unique()]: drop an object already seen, keep first occurrences. *)
Fixpoint unique_from (seen rows : list Issue.t) : list Issue.t :=
  match rows with
  | [] => []
  | x :: rest =>
      if decide (x ∈ seen) then unique_from seen rest
      else x :: unique_from (x :: seen) rest
  end.
Definition unique (rows : list Issue.t) : list Issue.t := unique_from [] rows.
End Sql.

(** ** Crawl scheduler *)

(** [datetime.timedelta(hours=h)] in microseconds. *)
Definition timedelta_hours (h : Z) : Z := h * 3600000000.

Definition crawl_issue_where (one_hour_ago : Z) (row : Sql.Row) : bool :=
  let '(i, o, r) := row in
  (Sql.is_null (Issue.github_issue_fetched_at i)
   || Sql.lt (Issue.github_issue_fetched_at i) one_hour_ago)
  && Sql.is_null (Issue.deleted_at i)
  && Sql.is_null (Organization.deleted_at o)
  && Sql.is_null (Repository.deleted_at r)
  && Sql.is_not_null (Organization.installation_id o).

Definition list_issues_to_crawl_issue (db : Db) (current_time : Z)
  : list Issue.t :=
  let one_hour_ago := current_time - timedelta_hours 1 in
  let stmt :=
    Sql.limit 1000
      (Sql.order_by_asc (λ row : Sql.Row, Issue.github_issue_fetched_at row.1.1)
         (filter (λ row, crawl_issue_where one_hour_ago row)
            (Sql.select_join db))) in
  Sql.unique (Sql.scalars stmt).

Definition crawl_timeline_where (one_hour_ago : Z) (row : Sql.Row) : bool :=
  let '(i, o, r) := row in
  (Sql.is_null (Issue.github_timeline_fetched_at i)
   || Sql.lt (Issue.github_timeline_fetched_at i) one_hour_ago)
  && Sql.is_null (Issue.deleted_at i)
  && Sql.is_null (Organization.deleted_at o)
  && Sql.is_null (Repository.deleted_at r)
  && Sql.is_not_null (Organization.installation_id o).

Definition list_issues_to_crawl_timeline (db : Db) (current_time : Z)
  : list Issue.t :=
  let one_hour_ago := current_time - timedelta_hours 1 in
  let stmt :=
    Sql.limit 1000
      (Sql.order_by_asc
         (λ row : Sql.Row, Issue.github_timeline_fetched_at row.1.1)
         (filter (λ row, crawl_timeline_where one_hour_ago row)
            (Sql.select_join db))) in
  Sql.unique (Sql.scalars stmt).

(** ** Effects: state, exceptions and the record of what was done *)

(** [githubkit]'s issue model and [IssueCreate]: the payload columns only. *)
Record GitHubIssue := mkGitHubIssue {
  gh_id : Z;
  gh_number : Z;
  gh_title : string
}.

Record IssueCreate := mkIssueCreate {
  create_external_id : Z;
  create_organization_id : Z;
  create_repository_id : Z;
  create_number : Z;
  create_title : string
}.

(** [httpx.Headers], which [Response.headers] hands out: the header lines in
    the order received, each a name as sent and a value.  A name is matched
    without regard to (ASCII) case, and [get] joins the values of all lines
    with that name by [", "]. *)
Module Headers.
Abbreviation t := (list (string * string)).

Definition lower_char (c : Ascii.ascii) : Ascii.ascii :=
  let n := Ascii.N_of_ascii c in
  if ((65 <=? n) && (n <=? 90))%N then Ascii.ascii_of_N (n + 32) else c.

Fixpoint lower (s : string) : string :=
  match s with
  | EmptyString => EmptyString
  | String c rest => String (lower_char c) (lower rest)
  end.

(** [headers.get(key, None)] *)
Definition get (key : string) (h : t) : option string :=
  let normalized_key := lower key in
  let items :=
    snd <$> filter (λ line : string * string, lower line.1 = normalized_key) h in
  match items with
  | [] => None
  | _ :: _ => Some (String.concat ", " items)
  end.
End Headers.

(** [githubkit.Response]. *)
Record Response := mkResponse {
  status_code : Z;
  parsed_data : GitHubIssue;
  headers : Headers.t
}.

Inductive Exn :=
| RequestFailed (status : Z)    (* githubkit.exception.RequestFailed *)
| NoInstallationId              (* Exception("no github installation id found") *)
| IndexError                    (* records[0] on an empty sequence *)
| OtherError (msg : string).    (* anything else a collaborator raises *)

#[global] Instance Exn_eq_dec : EqDecision Exn.
Proof. solve_decision. Defined.

Inductive Event :=
| LogInfo (event : string)
| LogWarning (event error : string)
| ApiRequest (client : Z) (url : string) (etag : option string)
| UpsertMany (schemas : list IssueCreate)
| HookCall (record : Issue.t)
| Save (obj : Issue.t)
| SoftDelete (id : Z).

Record Res (A : Type) := mkRes {
  outcome : Exn + A;
  store_after : Db;
  emitted : list Event
}.
Arguments mkRes {A} _ _ _.
Arguments outcome {A} _.
Arguments store_after {A} _.
Arguments emitted {A} _.

Definition M (A : Type) : Type := Db → Res A.

Definition ret {A} (a : A) : M A := λ db, mkRes (inr a) db [].

Definition raise {A} (e : Exn) : M A := λ db, mkRes (inl e) db [].

Definition bind {A B} (m : M A) (k : A → M B) : M B :=
  λ db,
    let r := m db in
    match outcome r with
    | inl e => mkRes (inl e) (store_after r) (emitted r)
    | inr a =>
        let r' := k a (store_after r) in
        mkRes (outcome r') (store_after r') (emitted r ++ emitted r')
    end.

(** Run [m] and hand its exception, if any, to the caller as a value: the
    [try] half of [try ... except]. *)
Definition attempt {A} (m : M A) : M (Exn + A) :=
  λ db, let r := m db in mkRes (inr (outcome r)) (store_after r) (emitted r).

Definition emit (ev : Event) : M unit := λ db, mkRes (inr ()) db [ev].

Notation "x <- m ;; k" := (bind m (λ x, k))
  (at level 100, m at next level, right associativity).

(** [for x in xs: body(x)] *)
Fixpoint for_each {A} (body : A → M unit) (xs : list A) : M unit :=
  match xs with
  | [] => ret ()
  | x :: rest => _ <- body x ;; for_each body rest
  end.

(** The remote: what [github_api.async_request_with_headers] answers to a
    client, a URL and an optional validator. *)
Definition Remote : Type := Z → string → option string → Exn + Response.

(** Modelled from the spec: [Issue.save] of the active-record base class (not
    part of this file).  The engine "is given the current Record snapshot and
    returns the delta to apply": saving an object that was [loaded] from the
    store and is now [current] updates, on the row with its primary key, the
    columns that were assigned a new value. *)
Definition save (loaded current : Issue.t) : M unit :=
  λ db, mkRes (inr ())
          (with_issues
             (alter (Issue.flush loaded current) (Issue.id loaded) (issues db)) db)
          [Save current].

(** Modelled from the spec: [soft_delete] of the resource-service base class
    (not part of this file): "soft-delete the record ([deletedAt = now])", an
    update of that one column on the row with the given primary key. *)
Definition soft_delete (utc_now : Z) (id : Z) : M unit :=
  λ db, mkRes (inr ())
          (with_issues (alter (Issue.set_deleted_at (Some utc_now)) id (issues db)) db)
          [SoftDelete id].

Section Service.
(** Collaborators that live outside this file. *)
Variable from_github : GitHubIssue → Z → Z → IssueCreate.
Variable upsert_many_impl : Db → list IssueCreate → Exn + (Db * list Issue.t).
Variable issue_upserted_impl : Issue.t → option Exn.

(** [self.upsert_many(session, schemas, constraints=[Issue.external_id])]:
    one write; when it raises, nothing is stored. *)
Definition upsert_many (schemas : list IssueCreate) : M (list Issue.t) :=
  λ db,
    match upsert_many_impl db schemas with
    | inl e => mkRes (inl e) db [UpsertMany schemas]
    | inr (db', records) => mkRes (inr records) db' [UpsertMany schemas]
    end.

(** [issue_upserted.call(IssueHook(session, record))] *)
Definition issue_upserted_call (record : Issue.t) : M unit :=
  λ db,
    match issue_upserted_impl record with
    | Some e => mkRes (inl e) db [HookCall record]
    | None => mkRes (inr ()) db [HookCall record]
    end.

Definition store_many (data : list GitHubIssue)
    (organization : Organization.t) (repository : Repository.t)
  : M (list Issue.t) :=
  let parse issue :=
    from_github issue (Organization.id organization) (Repository.id repository) in
  let schemas := parse <$> data in
  match schemas with
  | [] =>
      _ <- emit (LogWarning "github.issue" "no issues to store") ;;
      ret []
  | _ :: _ =>
      records <- upsert_many schemas ;;
      _ <- for_each issue_upserted_call records ;;
      ret records
  end.

(** [records[0]] *)
Definition first_record (records : list Issue.t) : M Issue.t :=
  match records with
  | [] => raise IndexError
  | record :: _ => ret record
  end.

Definition store (data : GitHubIssue)
    (organization : Organization.t) (repository : Repository.t)
  : M Issue.t :=
  records <- store_many [data] organization repository ;;
  first_record records.

Definition issue_url (owner repo : string) (issue_number : Z) : string :=
  "/repos/" +:+ owner +:+ "/" +:+ repo +:+ "/issues/" +:+ pretty issue_number.

Definition async_issues_get_with_headers (remote : Remote) (client : Z)
    (owner repo : string) (issue_number : Z) (etag : option string)
  : M Response :=
  let url := issue_url owner repo issue_number in
  λ db, mkRes (remote client url etag) db [ApiRequest client url etag].

(** [crawl_with_installation_id if crawl_with_installation_id else
    org.installation_id]: [None] and [0] are both falsy. *)
Definition installation_id_for (org : Organization.t)
    (crawl_with_installation_id : option Z) : option Z :=
  match crawl_with_installation_id with
  | Some n => if bool_decide (n = 0) then Organization.installation_id org
              else crawl_with_installation_id
  | None => Organization.installation_id org
  end.

(** [sync_issue] returns [None]; the embedding returns the [issue] object as
    the method leaves it, since the caller still holds it.  The parameter
    [issue] is the object as loaded; [issue'] is the object after the
    assignments to its attributes.  [utcnow] is the
    reading of [datetime.datetime.utcnow()] during the call. *)
Definition sync_issue (remote : Remote) (utcnow : Z)
    (org : Organization.t) (repo : Repository.t) (issue : Issue.t)
    (crawl_with_installation_id : option Z)
  : M Issue.t :=
  let installation_id := installation_id_for org crawl_with_installation_id in
  match installation_id with
  | None => raise NoInstallationId
  | Some iid =>
    if bool_decide (iid = 0) then raise NoInstallationId else
    let client := iid in
    _ <- emit (LogInfo "github.sync_issue") ;;
    res <- attempt (async_issues_get_with_headers remote client
                     (Organization.name org) (Repository.name repo)
                     (Issue.number issue) (Issue.github_issue_etag issue)) ;;
    match res with
    | inl (RequestFailed status) =>
        if bool_decide (status = 404) then
          _ <- emit (LogInfo "github.sync_issue.404.marking_as_crawled") ;;
          let issue' := Issue.set_github_issue_fetched_at (Some utcnow) issue in
          _ <- save issue issue' ;;
          ret issue'
        else if bool_decide (status = 410) then
          _ <- emit (LogInfo "github.sync_issue.410.soft_deleting") ;;
          _ <- soft_delete utcnow (Issue.id issue) ;;
          ret issue
        else raise (RequestFailed status)
    | inl e => raise e
    | inr res =>
        if bool_decide (status_code res = 304) then
          _ <- emit (LogInfo "github.sync_issue.etag_cache_hit") ;;
          ret issue
        else if bool_decide (status_code res = 200) then
          _ <- emit (LogInfo "github.sync_issue.etag_cache_miss") ;;
          _ <- store (parsed_data res) org repo ;;
          let issue' := Issue.set_github_issue_fetched_at (Some utcnow) issue in
          let issue' := Issue.set_github_issue_etag (Headers.get "etag" (headers res)) issue' in
          _ <- save issue issue' ;;
          ret issue'
        else ret issue
    end
  end.
End Service.

(** ** The vocabulary of the specification *)

(** The two freshness dimensions and their columns. *)
Inductive Dimension := Body | Timeline.

Definition freshness (d : Dimension) (i : Issue.t) : option Z :=
  match d with
  | Body => Issue.github_issue_fetched_at i
  | Timeline => Issue.github_timeline_fetched_at i
  end.

Definition select_candidates (d : Dimension) (db : Db) (now : Z) : list Issue.t :=
  match d with
  | Body => list_issues_to_crawl_issue db now
  | Timeline => list_issues_to_crawl_timeline db now
  end.

(** The joined rows that pass the WHERE clause, before ORDER BY and LIMIT. *)
Definition where_stage (d : Dimension) (db : Db) (now : Z) : list Sql.Row :=
  match d with
  | Body =>
      filter (λ row, crawl_issue_where (now - timedelta_hours 1) row)
        (Sql.select_join db)
  | Timeline =>
      filter (λ row, crawl_timeline_where (now - timedelta_hours 1) row)
        (Sql.select_join db)
  end.

(** The selection predicate, in the words of the specification. *)
Definition due (d : Dimension) (now : Z)
    (i : Issue.t) (o : Organization.t) (r : Repository.t) : Prop :=
  Issue.deleted_at i = None
  ∧ Organization.deleted_at o = None
  ∧ Repository.deleted_at r = None
  ∧ is_Some (Organization.installation_id o)
  ∧ (freshness d i = None
     ∨ ∃ t, freshness d i = Some t ∧ t < now - timedelta_hours 1).

(** Ascending with NULLs first: the order the specification asks for. *)
Definition asc_nulls_first (a b : option Z) : Prop :=
  match a, b with
  | Some x, Some y => x ≤ y
  | None, _ => True
  | Some _, None => False
  end.

(** [sync_issue] has no return value; the specification's result names the
    path taken, which shows in the outcome and in the writes performed. *)
Inductive SyncResult := Unchanged | Upserted | SoftDeleted | Failed (cause : Exn).

Definition is_soft_delete (ev : Event) : bool :=
  match ev with SoftDelete _ => true | _ => false end.
Definition is_upsert (ev : Event) : bool :=
  match ev with UpsertMany _ => true | _ => false end.
Definition is_store_write (ev : Event) : bool :=
  match ev with UpsertMany _ | Save _ | SoftDelete _ => true | _ => false end.

Definition sync_result {A} (r : Res A) : SyncResult :=
  match outcome r with
  | inl cause => Failed cause
  | inr _ =>
      if existsb is_soft_delete (emitted r) then SoftDeleted
      else if existsb is_upsert (emitted r) then Upserted
      else Unchanged
  end.

Definition store_writes (evs : list Event) : list Event :=
  filter (λ ev, is_store_write ev) evs.

(** The stored body-freshness timestamp of the row with primary key [k]. *)
Definition stored_fetched_at (k : Z) (db : Db) : option Z :=
  issues db !! k ≫= Issue.github_issue_fetched_at.

(** Order on a nullable timestamp as a freshness value: never fetched comes
    before every time. *)
Definition fetched_le (a b : option Z) : Prop :=
  match a, b with
  | None, _ => True
  | Some x, Some y => x ≤ y
  | Some _, None => False
  end.

#[global] Instance fetched_le_dec a b : Decision (fetched_le a b).
Proof. destruct a, b; simpl; apply _. Defined.

(** No stored body timestamp lies after the clock reading [now]. *)
Definition clock_not_behind (db : Db) (now : Z) : Prop :=
  map_Forall (λ _ i, fetched_le (Issue.github_issue_fetched_at i) (Some now))
    (issues db).

#[global] Instance clock_not_behind_dec db now : Decision (clock_not_behind db now).
Proof. unfold clock_not_behind. apply _. Defined.

(** One [sync_issue] call as a scheduling pass issues it. *)
Record Call := mkCall {
  call_remote : Remote;
  call_utcnow : Z;
  call_org : Organization.t;
  call_repo : Repository.t;
  call_issue : Issue.t;
  call_installation : option Z
}.

Section Runs.
Variable from_github : GitHubIssue → Z → Z → IssueCreate.
Variable upsert_many_impl : Db → list IssueCreate → Exn + (Db * list Issue.t).
Variable issue_upserted_impl : Issue.t → option Exn.

Definition sync_call (c : Call) : M Issue.t :=
  sync_issue from_github upsert_many_impl issue_upserted_impl
    (call_remote c) (call_utcnow c) (call_org c) (call_repo c)
    (call_issue c) (call_installation c).

(** Successive calls; a caller goes on after a call that raised. *)
Definition sync_run (calls : list Call) (db : Db) : Db :=
  foldl (λ db c, store_after (sync_call c db)) db calls.
End Runs.

(** The upsert collaborator leaves the body-freshness column alone:
    [IssueCreate] does not carry it. *)
Definition upsert_keeps_fetched_at
    (upsert_many_impl : Db → list IssueCreate → Exn + (Db * list Issue.t)) : Prop :=
  ∀ db schemas db' records k,
    upsert_many_impl db schemas = inr (db', records) →
    stored_fetched_at k db' = stored_fetched_at k db.

(** [store] written out directly from what it is documented to do: parse the
    one input, upsert the one schema on [external_id], dispatch the hook for
    every record the write returns, and answer the first of them. *)
Definition store_direct
    (from_github : GitHubIssue → Z → Z → IssueCreate)
    (upsert_many_impl : Db → list IssueCreate → Exn + (Db * list Issue.t))
    (issue_upserted_impl : Issue.t → option Exn)
    (data : GitHubIssue) (organization : Organization.t)
    (repository : Repository.t) : M Issue.t :=
  let schema :=
    from_github data (Organization.id organization) (Repository.id repository) in
  records <- upsert_many upsert_many_impl [schema] ;;
  _ <- for_each (issue_upserted_call issue_upserted_impl) records ;;
  first_record records.

(** ** Badge bookkeeping: [embed_badge] and [remove_badge] *)

(** The two badge columns of an issue row, [pledge_badge_embedded_at] and
    [pledge_badge_ever_embedded], kept as a table of their own under the
    issue's primary key. *)
Module Badge.
Record columns := mk {
  pledge_badge_embedded_at : option Z;
  pledge_badge_ever_embedded : bool
}.
End Badge.

Inductive BadgeEvent :=
| BadgeLog (embedded : bool) (reason : string) (issue_id : Z)
| BadgeEmbed (issue_id : Z)                       (* badge.embed() *)
| BadgeRemove (issue_id : Z)                      (* badge.remove() *)
| BadgeUpdate (issue_id : Z) (values : Badge.columns).

Record BadgeRes := mkBadgeRes {
  badge_outcome : Exn + bool;
  badge_after : gmap Z Badge.columns;
  badge_emitted : list BadgeEvent
}.

(** [sql.update(Issue).values(...).where(Issue.id == id)] on the two columns. *)
Definition update_badge (id : Z) (values : Badge.columns)
    (tbl : gmap Z Badge.columns) : gmap Z Badge.columns :=
  alter (λ _, values) id tbl.

Section Badges.
(** [GithubBadge.should_add_badge], [GithubBadge.should_remove_badge],
    [badge.embed()] and [badge.remove()] live outside this file. *)
Variable should_add_badge :
  Organization.t → Repository.t → Issue.t → bool → bool * string.
Variable should_remove_badge :
  Organization.t → Repository.t → Issue.t → bool → bool * string.
Variable embed_impl : Organization.t → Repository.t → Issue.t → option Exn.
Variable remove_impl : Organization.t → Repository.t → Issue.t → option Exn.

Definition embed_badge (utc_now : Z) (organization : Organization.t)
    (repository : Repository.t) (issue : Issue.t) (triggered_from_label : bool)
    (tbl : gmap Z Badge.columns) : BadgeRes :=
  let '(should, reason) :=
    should_add_badge organization repository issue triggered_from_label in
  if negb should then
    mkBadgeRes (inr false) tbl [BadgeLog false reason (Issue.id issue)]
  else
    match embed_impl organization repository issue with
    | Some e => mkBadgeRes (inl e) tbl [BadgeEmbed (Issue.id issue)]
    | None =>
        let values := Badge.mk (Some utc_now) true in
        mkBadgeRes (inr true) (update_badge (Issue.id issue) values tbl)
          [BadgeEmbed (Issue.id issue); BadgeUpdate (Issue.id issue) values]
    end.

Definition remove_badge (organization : Organization.t)
    (repository : Repository.t) (issue : Issue.t) (triggered_from_label : bool)
    (tbl : gmap Z Badge.columns) : BadgeRes :=
  let '(should, reason) :=
    should_remove_badge organization repository issue triggered_from_label in
  if negb should then
    mkBadgeRes (inr false) tbl [BadgeLog false reason (Issue.id issue)]
  else
    match remove_impl organization repository issue with
    | Some e => mkBadgeRes (inl e) tbl [BadgeRemove (Issue.id issue)]
    | None =>
        let values := Badge.mk None true in
        mkBadgeRes (inr false) (update_badge (Issue.id issue) values tbl)
          [BadgeRemove (Issue.id issue); BadgeUpdate (Issue.id issue) values]
    end.

(** A call of either method, and a sequence of such calls. *)
Inductive BadgeCall :=
| EmbedBadge (utc_now : Z) (organization : Organization.t)
    (repository : Repository.t) (issue : Issue.t) (triggered_from_label : bool)
| RemoveBadge (organization : Organization.t)
    (repository : Repository.t) (issue : Issue.t) (triggered_from_label : bool).

Definition badge_call (c : BadgeCall) (tbl : gmap Z Badge.columns) : BadgeRes :=
  match c with
  | EmbedBadge utc_now organization repository issue triggered =>
      embed_badge utc_now organization repository issue triggered tbl
  | RemoveBadge organization repository issue triggered =>
      remove_badge organization repository issue triggered tbl
  end.

Definition badge_run (calls : list BadgeCall) (tbl : gmap Z Badge.columns)
  : gmap Z Badge.columns :=
  foldl (λ tbl c, badge_after (badge_call c tbl)) tbl calls.
End Badges.

#[global] Instance Organization_eq_dec : EqDecision Organization.t.
Proof. solve_decision. Defined.

#[global] Instance Repository_eq_dec : EqDecision Repository.t.
Proof. solve_decision. Defined.

(** Every issue row is stored under its own primary key. *)
Definition keyed_by_id (db : Db) : Prop :=
  map_Forall (λ k i, Issue.id i = k) (issues db).

#[global] Instance keyed_by_id_dec db : Decision (keyed_by_id db).
Proof. unfold keyed_by_id. apply _. Defined.

(** The timeline-freshness timestamp of the row with primary key [k]. *)
Definition stored_timeline_fetched_at (k : Z) (db : Db) : option Z :=
  issues db !! k ≫= Issue.github_timeline_fetched_at.

(** The upsert collaborator leaves the timeline-freshness column alone. *)
Definition upsert_keeps_timeline
    (upsert_many_impl : Db → list IssueCreate → Exn + (Db * list Issue.t)) : Prop :=
  ∀ db schemas db' records k,
    upsert_many_impl db schemas = inr (db', records) →
    stored_timeline_fetched_at k db' = stored_timeline_fetched_at k db.

Definition is_api_request (ev : Event) : bool :=
  match ev with ApiRequest _ _ _ => true | _ => false end.

(** ** Concrete data for the examples *)

Module Sample.
Definition org : Organization.t := Organization.mk 1 "acme" (Some 77) None.
Definition repo : Repository.t := Repository.mk 10 "widgets" None.

Definition issue_at (id : Z) (body timeline : option Z) : Issue.t :=
  Issue.mk id (5000 + id) 1 10 id "title" (Some "abc") body timeline None.

Definition t1 : Z := 100.
Definition t2 : Z := 200.
Definition t3 : Z := 300.
Definition now : Z := 10000000000.

Definition null_record : Issue.t := issue_at 1 None None.
Definition t1_record : Issue.t := issue_at 2 (Some t1) (Some t1).
Definition t3_record : Issue.t := issue_at 3 (Some t3) (Some t3).
Definition t2_record : Issue.t := issue_at 4 (Some t2) (Some t2).
Definition deleted_record : Issue.t :=
  Issue.set_deleted_at (Some 50) (issue_at 5 None None).

Definition table (rows : list Issue.t) : gmap Z Issue.t :=
  list_to_map ((λ i, (Issue.id i, i)) <$> rows).

Definition db : Db :=
  mkDb (table [null_record; t1_record; t3_record; t2_record; deleted_record])
       {[ 1 := org ]} {[ 10 := repo ]}.

Definition gh_issue : GitHubIssue := mkGitHubIssue 5002 2 "new title".

Definition from_github (g : GitHubIssue) (organization_id repository_id : Z)
  : IssueCreate :=
  mkIssueCreate (gh_id g) organization_id repository_id (gh_number g) (gh_title g).

(** A store that answers every schema with a record and keeps its tables. *)
Definition record_of (s : IssueCreate) : Issue.t :=
  Issue.mk (create_external_id s - 5000) (create_external_id s)
    (create_organization_id s) (create_repository_id s) (create_number s)
    (create_title s) None None None None.
Definition upsert_many_impl (db : Db) (schemas : list IssueCreate)
  : Exn + (Db * list Issue.t) :=
  inr (db, record_of <$> schemas).

Definition issue_upserted_impl (record : Issue.t) : option Exn := None.

Definition answer (status : Z) : Remote :=
  λ _ _ _, inr (mkResponse status gh_issue [("Content-Type", "application/json"); ("ETag", "xyz")]).
Definition failure (status : Z) : Remote :=
  λ _ _ _, inl (RequestFailed status).

Definition sync (remote : Remote) (issue : Issue.t) : Res Issue.t :=
  sync_issue from_github upsert_many_impl issue_upserted_impl
    remote now org repo issue None db.

(** Two 404 passes over the record [t1_record], the second read from the
    store after the first, with a clock that has gone back in between. *)
Definition clock_back_calls : list Call :=
  [ mkCall (failure 404) 500 org repo t1_record None;
    mkCall (failure 404) 400 org repo
      (Issue.set_github_issue_fetched_at (Some 500) t1_record) None ].

(** Three passes over the record [t1_record]: a 404, a server error, a 200. *)
Definition calls : list Call :=
  [ mkCall (failure 404) now org repo t1_record None;
    mkCall (failure 503) (now + 1) org repo t1_record None;
    mkCall (answer 200) (now + 2) org repo t1_record None ].

(** An upsert that answers no record, and a hook that rejects one record. *)
Definition silent_upsert (db : Db) (schemas : list IssueCreate)
  : Exn + (Db * list Issue.t) :=
  inr (db, []).
Definition picky_hook (record : Issue.t) : option Exn :=
  if bool_decide (Issue.id record = 3) then Some (OtherError "hook failed")
  else None.

(** More stale issues than one crawl pass takes: ids 1 to 1001, each last
    fetched at the time of its id. *)
Definition crowded : Db :=
  mkDb (table ((λ n, issue_at n (Some n) (Some n)) <$> seqZ 1 1001))
       {[ 1 := org ]} {[ 10 := repo ]}.

Definition badges : gmap Z Badge.columns :=
  {[ 2 := Badge.mk None false; 3 := Badge.mk (Some 40) true ]}.
Definition always (answer : bool) (reason : string)
    (o : Organization.t) (r : Repository.t) (i : Issue.t) (label : bool)
  : bool * string := (answer, reason).
Definition badge_ok (o : Organization.t) (r : Repository.t) (i : Issue.t)
  : option Exn := None.
End Sample.

(** * Properties of the crawl scheduler *)

#[local] Instance by_key_total {A} (key : A → option Z) : Total (Sql.by_key key).
Proof.
  intros x y. unfold Sql.by_key, Sql.asc.
  destruct (key x), (key y); auto; lia.
Qed.

#[local] Instance by_key_trans {A} (key : A → option Z) :
  Transitive (Sql.by_key key).
Proof.
  intros x y z. unfold Sql.by_key, Sql.asc.
  destruct (key x), (key y), (key z); auto; try lia; tauto.
Qed.

Lemma StronglySorted_sublist {A} (R : relation A) (l1 l2 : list A) :
  l1 `sublist_of` l2 → StronglySorted R l2 → StronglySorted R l1.
Proof.
  induction 1 as [|x l1 l2 Hsub IH|x l1 l2 Hsub IH]; intros Hs.
  - constructor.
  - apply StronglySorted_inv in Hs as [Hs Hall]. constructor; [auto|].
    rewrite Forall_forall in *. intros y Hy. apply Hall.
    by eapply elem_of_sublist.
  - apply StronglySorted_inv in Hs as [Hs _]. auto.
Qed.

Lemma unique_from_sublist (seen rows : list Issue.t) :
  Sql.unique_from seen rows `sublist_of` rows.
Proof.
  revert seen. induction rows as [|x rest IH]; intros seen; simpl.
  - constructor.
  - destruct (decide (x ∈ seen)).
    + by apply sublist_cons.
    + by apply sublist_skip.
Qed.

Lemma elem_of_unique_from (seen rows : list Issue.t) (x : Issue.t) :
  x ∈ Sql.unique_from seen rows ↔ x ∈ rows ∧ x ∉ seen.
Proof.
  revert seen. induction rows as [|y rest IH]; intros seen; simpl.
  - split; [by intros ?%elem_of_nil|by intros [?%elem_of_nil _]].
  - destruct (decide (y ∈ seen)) as [Hin|Hout].
    + rewrite IH, elem_of_cons. split; [tauto|].
      intros [[->|Hx] Hseen]; [done|tauto].
    + rewrite elem_of_cons, IH, !elem_of_cons.
      destruct (decide (x = y)) as [->|Hne]; tauto.
Qed.

Lemma elem_of_unique (rows : list Issue.t) (x : Issue.t) :
  x ∈ Sql.unique rows ↔ x ∈ rows.
Proof.
  unfold Sql.unique. rewrite elem_of_unique_from.
  split; [tauto|]. intros Hx. split; [done|]. by intros ?%elem_of_nil.
Qed.

Lemma elem_of_select_join (db : Db) (i : Issue.t) (o : Organization.t)
    (r : Repository.t) :
  (i, o, r) ∈ Sql.select_join db ↔
  (∃ k, issues db !! k = Some i)
  ∧ organizations db !! Issue.organization_id i = Some o
  ∧ repositories db !! Issue.repository_id i = Some r.
Proof.
  unfold Sql.select_join. rewrite list_elem_of_omap. split.
  - intros (i' & Hin & Hrow).
    apply list_elem_of_fmap in Hin as ([k v] & -> & Hkv).
    apply elem_of_map_to_list in Hkv. simpl in *.
    destruct (organizations db !! Issue.organization_id v) as [o'|] eqn:Ho;
      simpl in Hrow; [|done].
    destruct (repositories db !! Issue.repository_id v) as [r'|] eqn:Hr;
      simpl in Hrow; [|done].
    injection Hrow as -> -> ->. eauto.
  - intros ((k & Hk) & Ho & Hr). exists i. split.
    + apply list_elem_of_fmap. exists (k, i). split; [done|].
      by apply elem_of_map_to_list.
    + rewrite Ho. simpl. rewrite Hr. done.
Qed.

(** The tail of both queries: ORDER BY, LIMIT, then the result set. *)
Section Pipeline.
Context (col : Issue.t → option Z) (n : nat) (rows : list Sql.Row).

Let result : list Issue.t :=
  Sql.unique (Sql.scalars (Sql.limit n
    (Sql.order_by_asc (λ row : Sql.Row, col row.1.1) rows))).

Lemma pipeline_sorted : StronglySorted (Sql.by_key col) result.
Proof.
  subst result. unfold Sql.unique.
  eapply StronglySorted_sublist; [apply unique_from_sublist|].
  unfold Sql.scalars, Sql.limit, Sql.order_by_asc.
  eapply (StronglySorted_fmap _ (Sql.by_key (λ row : Sql.Row, col row.1.1)));
    [by intros x y|].
  eapply StronglySorted_sublist; [apply sublist_take|].
  apply StronglySorted_merge_sort; apply _.
Qed.

Lemma pipeline_elem (i : Issue.t) :
  i ∈ result → ∃ o r, (i, o, r) ∈ rows.
Proof.
  subst result. rewrite elem_of_unique. unfold Sql.scalars, Sql.limit.
  intros Hin. apply list_elem_of_fmap in Hin as ([[i' o] r] & -> & Hin).
  exists o, r. simpl.
  eapply elem_of_sublist in Hin; [|apply sublist_take].
  unfold Sql.order_by_asc in Hin. by rewrite merge_sort_Permutation in Hin.
Qed.

Lemma pipeline_complete (i : Issue.t) (o : Organization.t) (r : Repository.t) :
  (length rows ≤ n)%nat → (i, o, r) ∈ rows → i ∈ result.
Proof.
  intros Hlen Hin. subst result. rewrite elem_of_unique.
  unfold Sql.scalars, Sql.limit, Sql.order_by_asc.
  rewrite take_ge by (by rewrite merge_sort_Permutation).
  apply list_elem_of_fmap. exists (i, o, r). split; [done|].
  by rewrite merge_sort_Permutation.
Qed.
End Pipeline.

Lemma where_clause_spec (fresh del odel rdel inst : option Z) (cutoff : Z) :
  Is_true ((Sql.is_null fresh || Sql.lt fresh cutoff)
           && Sql.is_null del && Sql.is_null odel && Sql.is_null rdel
           && Sql.is_not_null inst)
  ↔ del = None ∧ odel = None ∧ rdel = None ∧ is_Some inst
    ∧ (fresh = None ∨ ∃ t, fresh = Some t ∧ t < cutoff).
Proof.
  destruct del, odel, rdel, inst; simpl;
    rewrite ?andb_false_r, ?andb_true_r; simpl;
    try (split; [intros []|intros (? & ? & ? & [? ?] & ?); congruence]).
  destruct fresh as [t|]; simpl.
  - rewrite bool_decide_spec. split.
    + intros Hlt. repeat split; eauto.
    + intros (_ & _ & _ & _ & [?|(t' & ? & ?)]); [done|congruence].
  - split; [|done]. intros _. repeat split; eauto.
Qed.

Lemma where_stage_spec (d : Dimension) (db : Db) (now : Z)
    (i : Issue.t) (o : Organization.t) (r : Repository.t) :
  (i, o, r) ∈ where_stage d db now ↔
  (i, o, r) ∈ Sql.select_join db ∧ due d now i o r.
Proof.
  unfold due.
  destruct d; unfold where_stage; rewrite list_elem_of_filter;
    unfold crawl_issue_where, crawl_timeline_where, freshness;
    rewrite where_clause_spec; tauto.
Qed.

Lemma select_candidates_pipeline (d : Dimension) (db : Db) (now : Z) :
  select_candidates d db now =
  Sql.unique (Sql.scalars (Sql.limit 1000
    (Sql.order_by_asc (λ row : Sql.Row, freshness d row.1.1)
       (where_stage d db now)))).
Proof. by destruct d. Qed.

(** C2 (as the code has it). For either freshness dimension the records
    [select_candidates] returns are in ascending order of the relevant
    freshness timestamp, with null timestamps sorting last; on records with
    timestamps [null, t1, t3, t2], [t1 < t2 < t3], the order is
    [t1, t2, t3, null]. *)
Theorem select_candidates_ascending_nulls_last :
  (∀ d db now,
     StronglySorted (Sql.by_key (freshness d)) (select_candidates d db now))
  ∧ list_issues_to_crawl_issue Sample.db Sample.now =
      [Sample.t1_record; Sample.t2_record; Sample.t3_record; Sample.null_record]
  ∧ list_issues_to_crawl_timeline Sample.db Sample.now =
      [Sample.t1_record; Sample.t2_record; Sample.t3_record; Sample.null_record].
Proof.
  split; [|split; vm_compute; reflexivity].
  intros d db now. rewrite select_candidates_pipeline. apply pipeline_sorted.
Qed.

(** C2, refuted as stated: on the records with body timestamps
    [null, t1, t3, t2] the body query does not answer
    [null-record, t1-record, t2-record, t3-record], and its answer is not in
    nulls-first order. *)
Lemma select_candidates_not_nulls_first :
  Sample.t1 < Sample.t2 < Sample.t3
  ∧ select_candidates Body Sample.db Sample.now ≠
      [Sample.null_record; Sample.t1_record; Sample.t2_record; Sample.t3_record]
  ∧ ¬ StronglySorted
        (λ x y, asc_nulls_first (freshness Body x) (freshness Body y))
        (select_candidates Body Sample.db Sample.now).
Proof.
  split; [by vm_compute|]. split.
  - vm_compute. discriminate.
  - intros Hs.
    assert (Heq : select_candidates Body Sample.db Sample.now =
      [Sample.t1_record; Sample.t2_record; Sample.t3_record; Sample.null_record])
      by (vm_compute; reflexivity).
    rewrite Heq in Hs.
    apply StronglySorted_inv in Hs as [_ Hall].
    rewrite Forall_forall in Hall.
    specialize (Hall Sample.null_record). apply Hall.
    apply list_elem_of_In. vm_compute. tauto.
Qed.

(** C6. A record whose [deleted_at] is set is never among the records
    [select_candidates] returns, for either freshness dimension; the same holds
    for the query run with any cutoff and any limit. *)
Theorem select_candidates_excludes_deleted (i : Issue.t) :
  Issue.deleted_at i ≠ None →
  (∀ d db now, i ∉ select_candidates d db now)
  ∧ (∀ db cutoff (limit : nat) col,
       (i ∉ Sql.unique (Sql.scalars (Sql.limit limit (Sql.order_by_asc col
              (filter (λ row, crawl_issue_where cutoff row) (Sql.select_join db))))))
       ∧ (i ∉ Sql.unique (Sql.scalars (Sql.limit limit (Sql.order_by_asc col
              (filter (λ row, crawl_timeline_where cutoff row) (Sql.select_join db))))))).
Proof.
  intros Hdel. split.
  - intros d db now Hin. rewrite select_candidates_pipeline in Hin.
    apply pipeline_elem in Hin as (o & r & Hin).
    apply where_stage_spec in Hin as [_ (Hnone & _)]. done.
  - intros db cutoff limit col.
    assert (Hgen : ∀ rows, (∀ row : Sql.Row, row ∈ rows → Issue.deleted_at row.1.1 = None) →
      i ∉ Sql.unique (Sql.scalars (Sql.limit limit (Sql.order_by_asc col rows)))).
    { intros rows Hrows Hin. rewrite elem_of_unique in Hin.
      unfold Sql.scalars, Sql.limit, Sql.order_by_asc in Hin.
      apply list_elem_of_fmap in Hin as (row & -> & Hin).
      eapply elem_of_sublist in Hin; [|apply sublist_take].
      rewrite merge_sort_Permutation in Hin. apply Hdel. by apply Hrows. }
    split; apply Hgen; intros [[i' o] r] Hin;
      apply list_elem_of_filter in Hin as [Hw _];
      unfold crawl_issue_where, crawl_timeline_where in Hw;
      apply where_clause_spec in Hw as (Hnone & _); done.
Qed.

Lemma select_candidates_excludes_deleted_witness :
  Issue.deleted_at Sample.deleted_record ≠ None
  ∧ Sample.deleted_record ∉ select_candidates Body Sample.db Sample.now.
Proof.
  assert (H : Issue.deleted_at Sample.deleted_record ≠ None) by (simpl; discriminate).
  split; [exact H|].
  exact (proj1 (select_candidates_excludes_deleted Sample.deleted_record H)
           Body Sample.db Sample.now).
Defined.

(** C7. For a stored record with its organization and repository, and for
    either freshness dimension: the record passes the selection of the crawl
    query exactly when its [deleted_at] is null, its organization and
    repository are not soft-deleted, the organization has an installation id,
    and the relevant freshness timestamp is null or older than now minus one
    hour.  Every record the query returns is such a candidate, and every
    candidate is returned as long as the candidates fit the query's limit. *)
Theorem candidate_iff_due (d : Dimension) (db : Db) (now k : Z)
    (i : Issue.t) (o : Organization.t) (r : Repository.t) :
  issues db !! k = Some i →
  organizations db !! Issue.organization_id i = Some o →
  repositories db !! Issue.repository_id i = Some r →
  ((i, o, r) ∈ where_stage d db now ↔ due d now i o r)
  ∧ (i ∈ select_candidates d db now → due d now i o r)
  ∧ ((length (where_stage d db now) ≤ 1000)%nat →
     due d now i o r → i ∈ select_candidates d db now).
Proof.
  intros Hi Ho Hr.
  assert (Hjoin : (i, o, r) ∈ Sql.select_join db)
    by (apply elem_of_select_join; eauto).
  split; [|split].
  - rewrite where_stage_spec. tauto.
  - rewrite select_candidates_pipeline. intros Hin.
    apply pipeline_elem in Hin as (o' & r' & Hin).
    apply where_stage_spec in Hin as [Hj Hdue].
    apply elem_of_select_join in Hj as (_ & Ho' & Hr').
    by simplify_eq.
  - rewrite select_candidates_pipeline. intros Hlen Hdue.
    eapply pipeline_complete; [done|].
    apply where_stage_spec. eauto.
Qed.

Lemma candidate_iff_due_witness :
  ((Sample.t1_record, Sample.org, Sample.repo)
     ∈ where_stage Timeline Sample.db Sample.now
   ↔ due Timeline Sample.now Sample.t1_record Sample.org Sample.repo)
  ∧ (Sample.t1_record ∈ select_candidates Timeline Sample.db Sample.now →
     due Timeline Sample.now Sample.t1_record Sample.org Sample.repo)
  ∧ ((length (where_stage Timeline Sample.db Sample.now) ≤ 1000)%nat →
     due Timeline Sample.now Sample.t1_record Sample.org Sample.repo →
     Sample.t1_record ∈ select_candidates Timeline Sample.db Sample.now).
Proof.
  apply (candidate_iff_due Timeline Sample.db Sample.now 2);
    vm_compute; reflexivity.
Defined.

(** * Properties of [sync_issue] *)

Lemma flush_loaded (loaded current : Issue.t) :
  Issue.flush loaded current loaded = current.
Proof.
  destruct loaded, current. unfold Issue.flush, Issue.written. cbn.
  repeat case_decide; congruence.
Qed.

Section SyncIssue.
Context (from_github : GitHubIssue → Z → Z → IssueCreate)
        (upsert_many_impl : Db → list IssueCreate → Exn + (Db * list Issue.t))
        (issue_upserted_impl : Issue.t → option Exn).
Context (remote : Remote) (utcnow : Z)
        (org : Organization.t) (repo : Repository.t) (issue : Issue.t)
        (crawl_with_installation_id : option Z) (db : Db).

Let run : Res Issue.t :=
  sync_issue from_github upsert_many_impl issue_upserted_impl remote utcnow
    org repo issue crawl_with_installation_id db.

(** The request [sync_issue] sends once an installation id [client] is
    found. *)
Let request (client : Z) : Event :=
  ApiRequest client
    (issue_url (Organization.name org) (Repository.name repo) (Issue.number issue))
    (Issue.github_issue_etag issue).

Let answer (client : Z) : Exn + Response :=
  remote client
    (issue_url (Organization.name org) (Repository.name repo) (Issue.number issue))
    (Issue.github_issue_etag issue).

Lemma sync_issue_no_installation :
  installation_id_for org crawl_with_installation_id = None
  ∨ installation_id_for org crawl_with_installation_id = Some 0 →
  run = mkRes (inl NoInstallationId) db [].
Proof.
  subst run. unfold sync_issue. intros [-> | ->]; reflexivity.
Qed.
Ltac enter_fetch Hinst Hzero :=
  subst run answer request; unfold sync_issue; rewrite Hinst;
  rewrite (bool_decide_eq_false_2 _ Hzero);
  unfold bind, attempt, emit, async_issues_get_with_headers; cbn.

Section Fetched.
Context (client : Z)
        (Hinst : installation_id_for org crawl_with_installation_id = Some client)
        (Hzero : client ≠ 0).

Lemma sync_issue_404 :
  answer client = inl (RequestFailed 404) →
  let issue' := Issue.set_github_issue_fetched_at (Some utcnow) issue in
  run = mkRes (inr issue')
          (with_issues
             (alter (Issue.flush issue issue') (Issue.id issue) (issues db)) db)
          [LogInfo "github.sync_issue"; request client;
           LogInfo "github.sync_issue.404.marking_as_crawled"; Save issue'].
Proof. intros Hans. enter_fetch Hinst Hzero. rewrite Hans. reflexivity. Qed.

Lemma sync_issue_410 :
  answer client = inl (RequestFailed 410) →
  run = mkRes (inr issue)
          (with_issues
             (alter (Issue.set_deleted_at (Some utcnow)) (Issue.id issue) (issues db))
             db)
          [LogInfo "github.sync_issue"; request client;
           LogInfo "github.sync_issue.410.soft_deleting";
           SoftDelete (Issue.id issue)].
Proof. intros Hans. enter_fetch Hinst Hzero. rewrite Hans. reflexivity. Qed.

Lemma sync_issue_raises (e : Exn) :
  answer client = inl e →
  e ≠ RequestFailed 404 → e ≠ RequestFailed 410 →
  run = mkRes (inl e) db [LogInfo "github.sync_issue"; request client].
Proof.
  intros Hans H404 H410. enter_fetch Hinst Hzero. rewrite Hans.
  destruct e as [status| | |msg]; try reflexivity.
  rewrite (bool_decide_eq_false_2 (status = 404)) by congruence.
  rewrite (bool_decide_eq_false_2 (status = 410)) by congruence.
  reflexivity.
Qed.

Lemma sync_issue_304 (res : Response) :
  answer client = inr res → status_code res = 304 →
  run = mkRes (inr issue) db
          [LogInfo "github.sync_issue"; request client;
           LogInfo "github.sync_issue.etag_cache_hit"].
Proof.
  intros Hans Hst. enter_fetch Hinst Hzero. rewrite Hans, Hst. reflexivity.
Qed.

Lemma sync_issue_ignored (res : Response) :
  answer client = inr res →
  status_code res ≠ 304 → status_code res ≠ 200 →
  run = mkRes (inr issue) db [LogInfo "github.sync_issue"; request client].
Proof.
  intros Hans H304 H200. enter_fetch Hinst Hzero. rewrite Hans.
  rewrite (bool_decide_eq_false_2 _ H304), (bool_decide_eq_false_2 _ H200).
  reflexivity.
Qed.
End Fetched.
End SyncIssue.

Section SyncOutcomes.
Context (from_github : GitHubIssue → Z → Z → IssueCreate)
        (upsert_many_impl : Db → list IssueCreate → Exn + (Db * list Issue.t))
        (issue_upserted_impl : Issue.t → option Exn).

Abbreviation sync := (sync_issue from_github upsert_many_impl issue_upserted_impl).

(** C4. When the fetch of a stored record fails with status 404, [sync_issue] sets
    the record's [github_issue_fetched_at] to the current time and saves it:
    that save is the only store write, the saved row is the record with that
    one column replaced, no soft delete happens, every other row is as
    before, and the call returns normally with nothing upserted or deleted
    (Unchanged). *)
Theorem sync_issue_not_found (remote : Remote) (utcnow : Z)
    (org : Organization.t) (repo : Repository.t) (issue : Issue.t)
    (crawl_with_installation_id : option Z) (db : Db) (client : Z) :
  installation_id_for org crawl_with_installation_id = Some client →
  client ≠ 0 →
  remote client
    (issue_url (Organization.name org) (Repository.name repo) (Issue.number issue))
    (Issue.github_issue_etag issue) = inl (RequestFailed 404) →
  issues db !! Issue.id issue = Some issue →
  let r := sync remote utcnow org repo issue crawl_with_installation_id db in
  let issue' := Issue.set_github_issue_fetched_at (Some utcnow) issue in
  sync_result r = Unchanged
  ∧ outcome r = inr issue'
  ∧ store_writes (emitted r) = [Save issue']
  ∧ issues (store_after r) !! Issue.id issue = Some issue'
  ∧ Issue.github_issue_fetched_at issue' = Some utcnow
  ∧ Issue.deleted_at issue' = Issue.deleted_at issue
  ∧ (∀ k, k ≠ Issue.id issue → issues (store_after r) !! k = issues db !! k)
  ∧ organizations (store_after r) = organizations db
  ∧ repositories (store_after r) = repositories db.
Proof.
  intros Hinst Hzero Hans Hrow r issue'. subst r.
  rewrite (sync_issue_404 _ _ _ _ _ _ _ _ _ _ client Hinst Hzero Hans).
  cbn [store_after outcome emitted issues organizations repositories with_issues].
  repeat split.
  - by rewrite lookup_alter_eq, Hrow; cbn; rewrite flush_loaded.
  - intros k Hk. by apply lookup_alter_ne.
Qed.

(** C3. When the fetch of a stored record fails with status 410,
    [sync_issue] soft-deletes the record (its [deleted_at] becomes the current
    time) and leaves its [github_issue_fetched_at] as it was, in the store and
    on the object; the soft delete is the only store write and the result is
    SoftDeleted. *)
Theorem sync_issue_gone (remote : Remote) (utcnow : Z)
    (org : Organization.t) (repo : Repository.t) (issue : Issue.t)
    (crawl_with_installation_id : option Z) (db : Db) (client : Z) :
  installation_id_for org crawl_with_installation_id = Some client →
  client ≠ 0 →
  remote client
    (issue_url (Organization.name org) (Repository.name repo) (Issue.number issue))
    (Issue.github_issue_etag issue) = inl (RequestFailed 410) →
  issues db !! Issue.id issue = Some issue →
  let r := sync remote utcnow org repo issue crawl_with_installation_id db in
  sync_result r = SoftDeleted
  ∧ outcome r = inr issue
  ∧ store_writes (emitted r) = [SoftDelete (Issue.id issue)]
  ∧ issues (store_after r) !! Issue.id issue
      = Some (Issue.set_deleted_at (Some utcnow) issue)
  ∧ (Issue.deleted_at <$> issues (store_after r) !! Issue.id issue)
      = Some (Some utcnow)
  ∧ stored_fetched_at (Issue.id issue) (store_after r)
      = stored_fetched_at (Issue.id issue) db
  ∧ (∀ k, k ≠ Issue.id issue → issues (store_after r) !! k = issues db !! k).
Proof.
  intros Hinst Hzero Hans Hrow r. subst r.
  rewrite (sync_issue_410 _ _ _ _ _ _ _ _ _ _ client Hinst Hzero Hans).
  unfold stored_fetched_at. cbn. rewrite lookup_alter_eq, Hrow. cbn.
  repeat split.
  intros k Hk. by apply lookup_alter_ne.
Qed.

(** C5. When the fetch raises anything but a 404 or a 410 (so also any
    failure status other than 404, 410, 304 and 200), [sync_issue] raises that
    same exception, writes nothing to the store and leaves the store as it
    was: no freshness timestamp moves and both crawl queries answer as
    before. *)
Theorem sync_issue_transient_failure (remote : Remote) (utcnow : Z)
    (org : Organization.t) (repo : Repository.t) (issue : Issue.t)
    (crawl_with_installation_id : option Z) (db : Db) (client : Z) (e : Exn) :
  installation_id_for org crawl_with_installation_id = Some client →
  client ≠ 0 →
  remote client
    (issue_url (Organization.name org) (Repository.name repo) (Issue.number issue))
    (Issue.github_issue_etag issue) = inl e →
  e ≠ RequestFailed 404 →
  e ≠ RequestFailed 410 →
  let r := sync remote utcnow org repo issue crawl_with_installation_id db in
  outcome r = inl e
  ∧ sync_result r = Failed e
  ∧ store_after r = db
  ∧ store_writes (emitted r) = []
  ∧ (∀ k d, (freshness d <$> issues (store_after r) !! k)
            = (freshness d <$> issues db !! k))
  ∧ (∀ d now, select_candidates d (store_after r) now = select_candidates d db now).
Proof.
  intros Hinst Hzero Hans H404 H410 r. subst r.
  rewrite (sync_issue_raises _ _ _ _ _ _ _ _ _ _ client Hinst Hzero e Hans H404 H410).
  cbn. repeat split.
Qed.
End SyncOutcomes.

Lemma sync_issue_not_found_witness :
  let r := Sample.sync (Sample.failure 404) Sample.t1_record in
  sync_result r = Unchanged
  ∧ stored_fetched_at 2 (store_after r) = Some Sample.now
  ∧ (Issue.deleted_at <$> issues (store_after r) !! 2) = Some None.
Proof.
  pose proof (sync_issue_not_found Sample.from_github Sample.upsert_many_impl
    Sample.issue_upserted_impl (Sample.failure 404) Sample.now Sample.org
    Sample.repo Sample.t1_record None Sample.db 77
    eq_refl ltac:(lia) eq_refl eq_refl) as (Hres & _ & _ & Hrow & _).
  cbv zeta. split; [exact Hres|].
  unfold stored_fetched_at, Sample.sync.
  change (Issue.id Sample.t1_record) with 2 in Hrow. rewrite Hrow.
  split; reflexivity.
Defined.

Lemma sync_issue_gone_witness :
  let r := Sample.sync (Sample.failure 410) Sample.t1_record in
  sync_result r = SoftDeleted
  ∧ (Issue.deleted_at <$> issues (store_after r) !! 2) = Some (Some Sample.now)
  ∧ stored_fetched_at 2 (store_after r) = Some Sample.t1.
Proof.
  pose proof (sync_issue_gone Sample.from_github Sample.upsert_many_impl
    Sample.issue_upserted_impl (Sample.failure 410) Sample.now Sample.org
    Sample.repo Sample.t1_record None Sample.db 77
    eq_refl ltac:(lia) eq_refl eq_refl) as (Hres & _ & _ & _ & Hdel & Hfetched & _).
  cbv zeta. split; [exact Hres|]. split; [exact Hdel|].
  unfold Sample.sync.
  change (Issue.id Sample.t1_record) with 2 in Hfetched. rewrite Hfetched.
  reflexivity.
Defined.

Lemma sync_issue_transient_failure_witness :
  let r := Sample.sync (Sample.failure 503) Sample.t1_record in
  outcome r = inl (RequestFailed 503)
  ∧ store_after r = Sample.db
  ∧ store_writes (emitted r) = [].
Proof.
  pose proof (sync_issue_transient_failure Sample.from_github
    Sample.upsert_many_impl Sample.issue_upserted_impl (Sample.failure 503)
    Sample.now Sample.org Sample.repo Sample.t1_record None Sample.db 77
    (RequestFailed 503) eq_refl ltac:(lia) eq_refl
    ltac:(discriminate) ltac:(discriminate)) as (Hout & _ & Hdb & Hw & _).
  cbv zeta. auto.
Defined.

(** C1, on the code. A record with validator ["abc"] and a body timestamp
    [t1] long past, whose fetch answers 304: [sync_issue] returns normally
    with no store write, payload and validator stay as they were, and the
    stored [github_issue_fetched_at] is still [t1], not the current time; the
    record is selected again by the next body crawl query. *)
Theorem sync_issue_not_modified_keeps_timestamp :
  let r := Sample.sync (Sample.answer 304) Sample.t1_record in
  sync_result r = Unchanged
  ∧ outcome r = inr Sample.t1_record
  ∧ store_writes (emitted r) = []
  ∧ store_after r = Sample.db
  ∧ (Issue.github_issue_etag <$> issues (store_after r) !! 2) = Some (Some "abc")
  ∧ stored_fetched_at 2 (store_after r) = Some Sample.t1
  ∧ stored_fetched_at 2 (store_after r) ≠ Some Sample.now
  ∧ Sample.t1_record ∈ select_candidates Body (store_after r) Sample.now.
Proof.
  cbv zeta.
  assert (Hrun : Sample.sync (Sample.answer 304) Sample.t1_record
    = mkRes (inr Sample.t1_record) Sample.db
        [LogInfo "github.sync_issue";
         ApiRequest 77 "/repos/acme/widgets/issues/2" (Some "abc");
         LogInfo "github.sync_issue.etag_cache_hit"]).
  { unfold Sample.sync.
    apply (sync_issue_304 Sample.from_github Sample.upsert_many_impl
             Sample.issue_upserted_impl (Sample.answer 304) Sample.now
             Sample.org Sample.repo Sample.t1_record None Sample.db 77
             eq_refl ltac:(lia)
             (mkResponse 304 Sample.gh_issue [("Content-Type", "application/json"); ("ETag", "xyz")])
             eq_refl eq_refl). }
  rewrite Hrun. cbn [store_after outcome emitted].
  repeat split; try (vm_compute; congruence).
  apply list_elem_of_In. vm_compute. tauto.
Qed.

(** * Properties of [store] and [store_many] *)

Section Upsert.
Context (from_github : GitHubIssue → Z → Z → IssueCreate)
        (upsert_many_impl : Db → list IssueCreate → Exn + (Db * list Issue.t))
        (issue_upserted_impl : Issue.t → option Exn).

Abbreviation hooks := (for_each (issue_upserted_call issue_upserted_impl)).

Lemma hooks_cons (record : Issue.t) (rest : list Issue.t) (db : Db) :
  hooks (record :: rest) db =
  match issue_upserted_impl record with
  | Some e => mkRes (inl e) db [HookCall record]
  | None =>
      mkRes (outcome (hooks rest db)) (store_after (hooks rest db))
        (HookCall record :: emitted (hooks rest db))
  end.
Proof.
  cbn. unfold bind.
  remember (for_each (issue_upserted_call issue_upserted_impl) rest) as tail.
  unfold issue_upserted_call.
  destruct (issue_upserted_impl record); reflexivity.
Qed.

Lemma hooks_keep_store (records : list Issue.t) (db : Db) :
  store_after (hooks records db) = db.
Proof.
  induction records as [|record rest IH]; [done|].
  rewrite hooks_cons. destruct (issue_upserted_impl record); cbn; [done|apply IH].
Qed.

Lemma hooks_in_order (records : list Issue.t) (db : Db) :
  ∃ n, emitted (hooks records db) = HookCall <$> take n records.
Proof.
  induction records as [|record rest [n IH]]; [by exists 0%nat|].
  rewrite hooks_cons. destruct (issue_upserted_impl record); cbn.
  - by exists 1%nat.
  - exists (S n). cbn. by rewrite IH.
Qed.

Lemma hooks_returned (records : list Issue.t) (db : Db) (u : unit) :
  outcome (hooks records db) = inr u →
  emitted (hooks records db) = HookCall <$> records.
Proof.
  induction records as [|record rest IH]; [done|].
  rewrite hooks_cons. destruct (issue_upserted_impl record); cbn; [done|].
  intros Hout. by rewrite IH.
Qed.

Lemma hooks_all_pass (records : list Issue.t) (db : Db) :
  Forall (λ record, issue_upserted_impl record = None) records →
  hooks records db = mkRes (inr ()) db (HookCall <$> records).
Proof.
  induction 1 as [|record rest Hnone _ IH]; [done|].
  rewrite hooks_cons, Hnone, IH. reflexivity.
Qed.

Lemma store_many_cons (d : GitHubIssue) (ds : list GitHubIssue)
    (organization : Organization.t) (repository : Repository.t) :
  store_many from_github upsert_many_impl issue_upserted_impl (d :: ds)
    organization repository
  = (records <- upsert_many upsert_many_impl
       ((λ issue, from_github issue (Organization.id organization)
                    (Repository.id repository)) <$> (d :: ds)) ;;
     _ <- hooks records ;;
     ret records).
Proof. reflexivity. Qed.

Lemma store_many_run (d : GitHubIssue) (ds : list GitHubIssue)
    (organization : Organization.t) (repository : Repository.t) (db : Db) :
  let schemas :=
    (λ issue, from_github issue (Organization.id organization)
                (Repository.id repository)) <$> (d :: ds) in
  store_many from_github upsert_many_impl issue_upserted_impl (d :: ds)
    organization repository db
  = match upsert_many_impl db schemas with
    | inl e => mkRes (inl e) db [UpsertMany schemas]
    | inr (db', records) =>
        mkRes (match outcome (hooks records db') with
               | inl e => inl e
               | inr _ => inr records
               end)
              (store_after (hooks records db'))
              (UpsertMany schemas :: emitted (hooks records db'))
    end.
Proof.
  cbv zeta. rewrite store_many_cons.
  generalize ((λ issue, from_github issue (Organization.id organization)
                 (Repository.id repository)) <$> (d :: ds)).
  intros schemas. unfold bind, upsert_many.
  destruct (upsert_many_impl db schemas) as [e|[db' records]]; cbn; [done|].
  destruct (hooks records db') as [[e|[]] db'' evs]; cbn;
    rewrite ?app_nil_r; reflexivity.
Qed.

(** C8. [store_many] on an empty list returns the empty list, reports the
    condition as a warning, raises nothing, writes nothing and dispatches no
    hook.  On a non-empty list there is one batch write; when it raises, the
    exception propagates and no hook is dispatched; when it succeeds, the
    hooks are dispatched after it in one pass over the returned records, in
    order, and when none of them raises the call returns those records. *)
Theorem store_many_empty_and_single_pass
    (organization : Organization.t) (repository : Repository.t) (db : Db) :
  store_many from_github upsert_many_impl issue_upserted_impl []
    organization repository db
  = mkRes (inr []) db [LogWarning "github.issue" "no issues to store"]
  ∧ ∀ data : list GitHubIssue, data ≠ [] →
      let r := store_many from_github upsert_many_impl issue_upserted_impl data
                 organization repository db in
      let schemas :=
        (λ issue, from_github issue (Organization.id organization)
                    (Repository.id repository)) <$> data in
      match upsert_many_impl db schemas with
      | inl e => r = mkRes (inl e) db [UpsertMany schemas]
      | inr (db', records) =>
          store_after r = db'
          ∧ (∃ n, emitted r = UpsertMany schemas :: (HookCall <$> take n records))
          ∧ (∀ returned, outcome r = inr returned →
               returned = records
               ∧ emitted r = UpsertMany schemas :: (HookCall <$> records))
          ∧ (Forall (λ record, issue_upserted_impl record = None) records →
               r = mkRes (inr records) db'
                     (UpsertMany schemas :: (HookCall <$> records)))
      end.
Proof.
  split; [reflexivity|].
  intros [|d ds] Hne; [done|]. cbv zeta. rewrite store_many_run. cbv zeta.
  destruct (upsert_many_impl db _) as [e|[db' records]]; [done|]. cbn.
  split; [apply hooks_keep_store|].
  split; [destruct (hooks_in_order records db') as [n Hn]; exists n; by rewrite Hn|].
  split.
  - intros returned Hout.
    destruct (outcome (hooks records db')) as [e|u] eqn:Hh; [done|].
    injection Hout as <-. by rewrite (hooks_returned _ _ _ Hh).
  - intros Hall. by rewrite (hooks_all_pass _ _ Hall).
Qed.

Lemma store_run (data : GitHubIssue)
    (organization : Organization.t) (repository : Repository.t) (db : Db) :
  let batch := store_many from_github upsert_many_impl issue_upserted_impl [data]
                 organization repository db in
  store from_github upsert_many_impl issue_upserted_impl data
    organization repository db
  = mkRes (match outcome batch with
           | inl e => inl e
           | inr [] => inl IndexError
           | inr (record :: _) => inr record
           end)
          (store_after batch) (emitted batch).
Proof.
  cbv zeta. unfold store, bind.
  destruct (store_many _ _ _ _ _ _ db) as [[e|[|record rest]] db' evs]; cbn;
    rewrite ?app_nil_r; reflexivity.
Qed.

Lemma store_direct_run (data : GitHubIssue)
    (organization : Organization.t) (repository : Repository.t) (db : Db) :
  store_direct from_github upsert_many_impl issue_upserted_impl data
    organization repository db
  = store from_github upsert_many_impl issue_upserted_impl data
      organization repository db.
Proof.
  unfold store, store_direct. rewrite store_many_cons. cbn [fmap list_fmap].
  unfold bind, upsert_many.
  destruct (upsert_many_impl db _) as [e|[db' records]]; cbn; [done|].
  destruct (hooks records db') as [[e|[]] db'' evs]; cbn; [done|].
  destruct records; cbn; by rewrite ?app_nil_r.
Qed.

(** C10. [store] on one input is [store_many] on the singleton list followed
    by taking the first returned record: both leave the same store and perform
    the same effects, [store] answers the first record of the batch (or fails
    as the batch does), and this is the direct path of one parse, one upsert
    of the one schema and the hook pass.  When the write answers one record
    and its hook passes, that is one upsert, one hook dispatch, and the
    record is the batch's. *)
Theorem store_is_store_many_singleton (data : GitHubIssue)
    (organization : Organization.t) (repository : Repository.t) (db : Db) :
  let one := store from_github upsert_many_impl issue_upserted_impl data
               organization repository db in
  let batch := store_many from_github upsert_many_impl issue_upserted_impl [data]
                 organization repository db in
  let schema := from_github data (Organization.id organization)
                  (Repository.id repository) in
  store_after one = store_after batch
  ∧ emitted one = emitted batch
  ∧ outcome one = match outcome batch with
                  | inl e => inl e
                  | inr [] => inl IndexError
                  | inr (record :: _) => inr record
                  end
  ∧ one = store_direct from_github upsert_many_impl issue_upserted_impl data
            organization repository db
  ∧ ∀ db' record,
      upsert_many_impl db [schema] = inr (db', [record]) →
      issue_upserted_impl record = None →
      batch = mkRes (inr [record]) db' [UpsertMany [schema]; HookCall record]
      ∧ one = mkRes (inr record) db' [UpsertMany [schema]; HookCall record].
Proof.
  cbv zeta. rewrite store_direct_run, store_run. cbv zeta.
  set (batch := store_many _ _ _ [data] _ _ db).
  split; [done|]. split; [done|]. split; [done|]. split; [done|].
  intros db' record Hup Hnone.
  assert (Hbatch : batch
    = mkRes (inr [record]) db'
        [UpsertMany [from_github data (Organization.id organization)
                       (Repository.id repository)];
         HookCall record]).
  { subst batch. rewrite store_many_run. cbv zeta. cbn [fmap list_fmap].
    rewrite Hup, hooks_cons, Hnone. reflexivity. }
  rewrite Hbatch. split; reflexivity.
Qed.
End Upsert.

Lemma store_many_empty_and_single_pass_witness :
  store_many Sample.from_github Sample.upsert_many_impl
    Sample.issue_upserted_impl [Sample.gh_issue] Sample.org Sample.repo Sample.db
  = mkRes (inr [Sample.record_of (Sample.from_github Sample.gh_issue 1 10)])
      Sample.db
      [UpsertMany [Sample.from_github Sample.gh_issue 1 10];
       HookCall (Sample.record_of (Sample.from_github Sample.gh_issue 1 10))].
Proof.
  pose proof (proj2 (store_many_empty_and_single_pass Sample.from_github
    Sample.upsert_many_impl Sample.issue_upserted_impl Sample.org Sample.repo
    Sample.db) [Sample.gh_issue] ltac:(discriminate)) as H.
  cbv zeta in H. cbn in H. destruct H as (_ & _ & _ & H).
  apply H. repeat constructor.
Defined.

Lemma store_is_store_many_singleton_witness :
  store Sample.from_github Sample.upsert_many_impl Sample.issue_upserted_impl
    Sample.gh_issue Sample.org Sample.repo Sample.db
  = mkRes (inr (Sample.record_of (Sample.from_github Sample.gh_issue 1 10)))
      Sample.db
      [UpsertMany [Sample.from_github Sample.gh_issue 1 10];
       HookCall (Sample.record_of (Sample.from_github Sample.gh_issue 1 10))].
Proof.
  pose proof (store_is_store_many_singleton Sample.from_github
    Sample.upsert_many_impl Sample.issue_upserted_impl Sample.gh_issue
    Sample.org Sample.repo Sample.db) as H.
  cbv zeta in H. destruct H as (_ & _ & _ & _ & H).
  exact (proj2 (H Sample.db _ eq_refl eq_refl)).
Defined.

(** * Monotonicity of the body-freshness timestamp *)

Lemma fetched_le_refl (a : option Z) : fetched_le a a.
Proof. destruct a; simpl; [lia|done]. Qed.

Lemma fetched_le_trans (a b c : option Z) :
  fetched_le a b → fetched_le b c → fetched_le a c.
Proof. destruct a, b, c; simpl; try done; lia. Qed.

Lemma clock_not_behind_spec (db : Db) (now : Z) :
  clock_not_behind db now ↔ ∀ k, fetched_le (stored_fetched_at k db) (Some now).
Proof.
  unfold clock_not_behind, stored_fetched_at, map_Forall. split.
  - intros Hall k. destruct (issues db !! k) as [i|] eqn:Hk; [|done].
    by apply (Hall k).
  - intros Hall k i Hk. specialize (Hall k). by rewrite Hk in Hall.
Qed.

Lemma stored_fetched_at_soft_delete (t k id : Z) (db : Db) :
  stored_fetched_at k
    (with_issues (alter (Issue.set_deleted_at (Some t)) id (issues db)) db)
  = stored_fetched_at k db.
Proof.
  unfold stored_fetched_at. cbn. destruct (decide (id = k)) as [->|Hne].
  - rewrite lookup_alter_eq. by destruct (issues db !! k).
  - by rewrite lookup_alter_ne.
Qed.

Lemma stored_fetched_at_save (k : Z) (loaded current : Issue.t) (db : Db) :
  let db1 := with_issues
               (alter (Issue.flush loaded current) (Issue.id loaded) (issues db)) db in
  stored_fetched_at k db1 = stored_fetched_at k db
  ∨ stored_fetched_at k db1 = Issue.github_issue_fetched_at current.
Proof.
  cbv zeta. unfold stored_fetched_at. cbn.
  destruct (decide (Issue.id loaded = k)) as [->|Hne];
    [|left; by rewrite lookup_alter_ne].
  rewrite lookup_alter_eq.
  destruct (issues db !! k) as [row|]; cbn; [|by left].
  unfold Issue.written. case_decide; auto.
Qed.

Section Monotone.
Context (from_github : GitHubIssue → Z → Z → IssueCreate)
        (upsert_many_impl : Db → list IssueCreate → Exn + (Db * list Issue.t))
        (issue_upserted_impl : Issue.t → option Exn).
Context (Hkeep : upsert_keeps_fetched_at upsert_many_impl).

Lemma store_keeps_fetched_at (data : GitHubIssue) (organization : Organization.t)
    (repository : Repository.t) (db : Db) (k : Z) :
  stored_fetched_at k
    (store_after (store from_github upsert_many_impl issue_upserted_impl data
                    organization repository db))
  = stored_fetched_at k db.
Proof.
  rewrite store_run. cbv zeta. cbn [store_after].
  rewrite store_many_run. cbv zeta.
  destruct (upsert_many_impl db _) as [e|[db' records]] eqn:Hup; [done|].
  cbn [store_after]. rewrite hooks_keep_store. by eapply Hkeep.
Qed.

Lemma sync_issue_200 (remote : Remote) (utcnow : Z) (org : Organization.t)
    (repo : Repository.t) (issue : Issue.t)
    (crawl_with_installation_id : option Z) (db : Db) (client : Z)
    (res : Response) :
  installation_id_for org crawl_with_installation_id = Some client →
  client ≠ 0 →
  remote client
    (issue_url (Organization.name org) (Repository.name repo) (Issue.number issue))
    (Issue.github_issue_etag issue) = inr res →
  status_code res = 200 →
  let stored := store from_github upsert_many_impl issue_upserted_impl
                  (parsed_data res) org repo db in
  let issue' :=
    Issue.set_github_issue_etag (Headers.get "etag" (headers res))
      (Issue.set_github_issue_fetched_at (Some utcnow) issue) in
  store_after (sync_issue from_github upsert_many_impl issue_upserted_impl
                 remote utcnow org repo issue crawl_with_installation_id db)
  = match outcome stored with
    | inl _ => store_after stored
    | inr _ =>
        with_issues
          (alter (Issue.flush issue issue') (Issue.id issue)
             (issues (store_after stored)))
          (store_after stored)
    end.
Proof.
  intros Hinst Hzero Hans Hst. cbv zeta. unfold sync_issue.
  rewrite Hinst, (bool_decide_eq_false_2 _ Hzero).
  unfold bind at 1 2, attempt, emit, async_issues_get_with_headers.
  cbn [outcome store_after emitted]. rewrite Hans, Hst. cbn [bool_decide].
  change (bool_decide (200 = 304)) with false.
  change (bool_decide (200 = 200)) with true. cbv iota.
  unfold bind, emit. cbn [outcome store_after emitted].
  destruct (store _ _ _ (parsed_data res) org repo db) as [[e|record] db' evs];
    reflexivity.
Qed.

(** One call either leaves a stored body timestamp as it was or sets it to
    the clock reading of the call. *)
Lemma sync_issue_step (remote : Remote) (utcnow : Z) (org : Organization.t)
    (repo : Repository.t) (issue : Issue.t)
    (crawl_with_installation_id : option Z) (db : Db) (k : Z) :
  let db1 := store_after
               (sync_issue from_github upsert_many_impl issue_upserted_impl
                  remote utcnow org repo issue crawl_with_installation_id db) in
  stored_fetched_at k db1 = stored_fetched_at k db
  ∨ stored_fetched_at k db1 = Some utcnow.
Proof.
  cbv zeta.
  destruct (installation_id_for org crawl_with_installation_id) as [client|] eqn:Hinst;
    [|rewrite sync_issue_no_installation by auto; by left].
  destruct (decide (client = 0)) as [->|Hzero];
    [rewrite sync_issue_no_installation by auto; by left|].
  destruct (remote client
    (issue_url (Organization.name org) (Repository.name repo) (Issue.number issue))
    (Issue.github_issue_etag issue)) as [e|res] eqn:Hans.
  - destruct (decide (e = RequestFailed 404)) as [->|H404].
    { rewrite (sync_issue_404 _ _ _ _ _ _ _ _ _ _ client Hinst Hzero Hans).
      cbn [store_after]. apply stored_fetched_at_save. }
    destruct (decide (e = RequestFailed 410)) as [->|H410].
    { rewrite (sync_issue_410 _ _ _ _ _ _ _ _ _ _ client Hinst Hzero Hans).
      cbn [store_after]. rewrite stored_fetched_at_soft_delete. by left. }
    rewrite (sync_issue_raises _ _ _ _ _ _ _ _ _ _ client Hinst Hzero e Hans H404 H410).
    by left.
  - destruct (decide (status_code res = 304)) as [H304|H304].
    { rewrite (sync_issue_304 _ _ _ _ _ _ _ _ _ _ client Hinst Hzero res Hans H304).
      by left. }
    destruct (decide (status_code res = 200)) as [H200|H200].
    { rewrite (sync_issue_200 _ _ _ _ _ _ _ client res Hinst Hzero Hans H200).
      destruct (outcome (store _ _ _ (parsed_data res) org repo db)).
      - left. apply store_keeps_fetched_at.
      - rewrite <- (store_keeps_fetched_at (parsed_data res) org repo db k).
        apply stored_fetched_at_save. }
    rewrite (sync_issue_ignored _ _ _ _ _ _ _ _ _ _ client Hinst Hzero res Hans H304 H200).
    by left.
Qed.

Abbreviation run := (sync_run from_github upsert_many_impl issue_upserted_impl).
Abbreviation call := (sync_call from_github upsert_many_impl issue_upserted_impl).

Lemma sync_call_monotone (c : Call) (db : Db) (k : Z) :
  clock_not_behind db (call_utcnow c) →
  fetched_le (stored_fetched_at k db) (stored_fetched_at k (store_after (call c db))).
Proof.
  intros Hclock. unfold sync_call.
  destruct (sync_issue_step (call_remote c) (call_utcnow c) (call_org c)
              (call_repo c) (call_issue c) (call_installation c) db k) as [-> | ->].
  - apply fetched_le_refl.
  - by apply clock_not_behind_spec.
Qed.

Lemma sync_call_clock (c : Call) (db : Db) (later : Z) :
  call_utcnow c ≤ later →
  clock_not_behind db later →
  clock_not_behind (store_after (call c db)) later.
Proof.
  rewrite !clock_not_behind_spec. intros Hle Hclock k. unfold sync_call.
  destruct (sync_issue_step (call_remote c) (call_utcnow c) (call_org c)
              (call_repo c) (call_issue c) (call_installation c) db k) as [-> | ->].
  - apply Hclock.
  - exact Hle.
Qed.

Lemma sync_run_monotone (calls : list Call) (db : Db) (k : Z) :
  StronglySorted (λ c c', call_utcnow c ≤ call_utcnow c') calls →
  Forall (λ c, clock_not_behind db (call_utcnow c)) calls →
  fetched_le (stored_fetched_at k db) (stored_fetched_at k (run calls db)).
Proof.
  intros Hsorted. revert db.
  induction Hsorted as [|c rest Hsorted IH Hle]; intros db Hclock.
  - apply fetched_le_refl.
  - apply Forall_cons in Hclock as [Hc Hrest]. cbn.
    eapply fetched_le_trans; [by apply sync_call_monotone|].
    apply IH. rewrite Forall_forall in *. intros c' Hc'.
    apply sync_call_clock; auto.
Qed.

Lemma sync_run_clock (before after : list Call) (db : Db) :
  StronglySorted (λ c c', call_utcnow c ≤ call_utcnow c') (before ++ after) →
  Forall (λ c, clock_not_behind db (call_utcnow c)) (before ++ after) →
  Forall (λ c, clock_not_behind (run before db) (call_utcnow c)) after.
Proof.
  revert db. induction before as [|c rest IH]; intros db Hsorted Hclock; [done|].
  cbn in *. apply StronglySorted_inv in Hsorted as [Hsorted Hle].
  apply Forall_cons in Hclock as [Hc Hrest].
  apply IH; [done|]. rewrite Forall_forall in *. intros c' Hc'.
  apply sync_call_clock; auto.
Qed.

(** C9 (as the code has it). [sync_issue] assigns the reading of the clock
    and compares it with nothing.  Along successive [sync_issue] calls whose
    clock readings do not go back and are not behind the stored timestamps,
    and with an upsert that does not write the column, the stored
    [github_issue_fetched_at] of every record only moves forward: after any
    longer run of calls it is at least what it was after a shorter one, a
    never-fetched record counting as earliest.  A call whose fetch fails with
    anything but 404 or 410 leaves the store, timestamp included, exactly as
    it was. *)
Theorem body_fetched_at_monotone (calls : list Call) (db : Db) :
  StronglySorted (λ c c', call_utcnow c ≤ call_utcnow c') calls →
  Forall (λ c, clock_not_behind db (call_utcnow c)) calls →
  (∀ before after k, calls = before ++ after →
     fetched_le (stored_fetched_at k (run before db))
                (stored_fetched_at k (run calls db)))
  ∧ (∀ c db0 client e,
       installation_id_for (call_org c) (call_installation c) = Some client →
       client ≠ 0 →
       call_remote c client
         (issue_url (Organization.name (call_org c)) (Repository.name (call_repo c))
            (Issue.number (call_issue c)))
         (Issue.github_issue_etag (call_issue c)) = inl e →
       e ≠ RequestFailed 404 → e ≠ RequestFailed 410 →
       store_after (call c db0) = db0
       ∧ ∀ k, stored_fetched_at k (store_after (call c db0)) = stored_fetched_at k db0).
Proof.
  intros Hsorted Hclock. split.
  - intros before after k ->. unfold sync_run. rewrite foldl_app.
    apply sync_run_monotone.
    + by eapply StronglySorted_app_1_r.
    + by apply sync_run_clock.
  - intros c db0 client e Hinst Hzero Hans H404 H410. unfold sync_call.
    rewrite (sync_issue_raises _ _ _ _ _ _ _ _ _ _ client Hinst Hzero e Hans H404 H410).
    done.
Qed.
End Monotone.

(** C9, refuted as stated: two successive 404 passes over one record, the
    clock reading 500 at the first and 400 at the second, leave its stored
    [github_issue_fetched_at] at 500 and then at 400. *)
Lemma body_fetched_at_goes_back_with_the_clock :
  let run := sync_run Sample.from_github Sample.upsert_many_impl
               Sample.issue_upserted_impl in
  stored_fetched_at 2 (run (take 1 Sample.clock_back_calls) Sample.db) = Some 500
  ∧ stored_fetched_at 2 (run Sample.clock_back_calls Sample.db) = Some 400
  ∧ ¬ fetched_le
        (stored_fetched_at 2 (run (take 1 Sample.clock_back_calls) Sample.db))
        (stored_fetched_at 2 (run Sample.clock_back_calls Sample.db)).
Proof.
  cbv zeta.
  assert (H1 : stored_fetched_at 2
                 (sync_run Sample.from_github Sample.upsert_many_impl
                    Sample.issue_upserted_impl (take 1 Sample.clock_back_calls)
                    Sample.db) = Some 500) by (vm_compute; reflexivity).
  assert (H2 : stored_fetched_at 2
                 (sync_run Sample.from_github Sample.upsert_many_impl
                    Sample.issue_upserted_impl Sample.clock_back_calls
                    Sample.db) = Some 400) by (vm_compute; reflexivity).
  rewrite H1, H2. repeat split. cbn. lia.
Qed.

Lemma sample_upsert_keeps_fetched_at :
  upsert_keeps_fetched_at Sample.upsert_many_impl.
Proof. intros db schemas db' records k [= <- _]. reflexivity. Qed.

Lemma body_fetched_at_monotone_witness :
  fetched_le (stored_fetched_at 2 Sample.db)
    (stored_fetched_at 2
       (sync_run Sample.from_github Sample.upsert_many_impl
          Sample.issue_upserted_impl Sample.calls Sample.db))
  ∧ stored_fetched_at 2
      (sync_run Sample.from_github Sample.upsert_many_impl
         Sample.issue_upserted_impl Sample.calls Sample.db)
    = Some (Sample.now + 2).
Proof.
  split; [|vm_compute; reflexivity].
  refine (proj1 (body_fetched_at_monotone Sample.from_github
    Sample.upsert_many_impl Sample.issue_upserted_impl
    sample_upsert_keeps_fetched_at Sample.calls Sample.db _ _)
    [] Sample.calls 2 eq_refl).
  - apply (bool_decide_unpack _). vm_compute. exact I.
  - apply (bool_decide_unpack _). vm_compute. exact I.
Defined.

(** * Further properties of the crawl queries *)

Lemma NoDup_unique_from (seen rows : list Issue.t) :
  NoDup (Sql.unique_from seen rows).
Proof.
  revert seen. induction rows as [|x rest IH]; intros seen; simpl.
  - constructor.
  - destruct (decide (x ∈ seen)); [apply IH|].
    constructor; [|apply IH].
    rewrite elem_of_unique_from, elem_of_cons. tauto.
Qed.

(** X1. Either crawl query answers at most 1000 records, whatever the tables
    hold. *)
Theorem select_candidates_bounded (d : Dimension) (db : Db) (now : Z) :
  (length (select_candidates d db now) ≤ 1000)%nat.
Proof.
  rewrite select_candidates_pipeline. unfold Sql.unique.
  etrans; [apply sublist_length, unique_from_sublist|].
  unfold Sql.scalars, Sql.limit. rewrite length_fmap, length_take. lia.
Qed.

(** X2. No record occurs twice in the answer of a crawl query. *)
Theorem select_candidates_NoDup (d : Dimension) (db : Db) (now : Z) :
  NoDup (select_candidates d db now).
Proof. rewrite select_candidates_pipeline. apply NoDup_unique_from. Qed.

(** X3. Every record a crawl query answers is a row of the issues table whose
    organization and repository rows exist: the inner joins drop an issue
    whose foreign keys point nowhere. *)
Theorem select_candidates_stored (d : Dimension) (db : Db) (now : Z) (i : Issue.t) :
  i ∈ select_candidates d db now →
  (∃ k, issues db !! k = Some i)
  ∧ is_Some (organizations db !! Issue.organization_id i)
  ∧ is_Some (repositories db !! Issue.repository_id i).
Proof.
  rewrite select_candidates_pipeline. intros Hin.
  apply pipeline_elem in Hin as (o & r & Hin).
  apply where_stage_spec in Hin as [Hjoin _].
  apply elem_of_select_join in Hjoin as (Hk & Ho & Hr). eauto.
Qed.

Lemma select_candidates_stored_witness :
  (∃ k, issues Sample.db !! k = Some Sample.t2_record)
  ∧ is_Some (organizations Sample.db !! Issue.organization_id Sample.t2_record)
  ∧ is_Some (repositories Sample.db !! Issue.repository_id Sample.t2_record).
Proof.
  apply (select_candidates_stored Body Sample.db Sample.now).
  apply list_elem_of_In. vm_compute. tauto.
Defined.

(** X4. When the limit cuts the answer short, it keeps the head of the
    order: a row that passes the selection but whose record is not answered
    has a freshness timestamp no earlier, in the query's order, than that of
    any answered record. *)
Theorem select_candidates_keeps_oldest (d : Dimension) (db : Db) (now : Z)
    (i i' : Issue.t) (o' : Organization.t) (r' : Repository.t) :
  i ∈ select_candidates d db now →
  (i', o', r') ∈ where_stage d db now →
  i' ∉ select_candidates d db now →
  Sql.asc (freshness d i) (freshness d i').
Proof.
  rewrite !select_candidates_pipeline, !elem_of_unique.
  unfold Sql.scalars, Sql.limit.
  set (sorted := Sql.order_by_asc _ (where_stage d db now)).
  intros Hin Hstage Hout.
  apply list_elem_of_fmap in Hin as (row & -> & Hrow).
  assert (Hsorted : StronglySorted
            (Sql.by_key (λ row : Sql.Row, freshness d row.1.1)) sorted)
    by (apply StronglySorted_merge_sort; apply _).
  rewrite <- (take_drop 1000 sorted) in Hsorted.
  apply (StronglySorted_app_1_elem_of _ _ _ row (i', o', r') Hsorted Hrow).
  assert (Hall : (i', o', r') ∈ sorted)
    by (subst sorted; unfold Sql.order_by_asc; by rewrite merge_sort_Permutation).
  rewrite <- (take_drop 1000 sorted), elem_of_app in Hall.
  destruct Hall as [Htake|Hdrop]; [|done].
  exfalso. apply Hout. apply list_elem_of_fmap. by exists (i', o', r').
Qed.

(** X5. A crawl query answers the empty list exactly when no joined row
    passes its WHERE clause. *)
Theorem select_candidates_empty_iff (d : Dimension) (db : Db) (now : Z) :
  select_candidates d db now = [] ↔ where_stage d db now = [].
Proof.
  rewrite select_candidates_pipeline. split.
  - intros Hnil. destruct (where_stage d db now) as [|row rest] eqn:Hstage; [done|].
    exfalso.
    set (sorted := Sql.order_by_asc (λ row : Sql.Row, freshness d row.1.1) (row :: rest)) in *.
    assert (Hlen : length sorted = S (length rest))
      by (subst sorted; unfold Sql.order_by_asc; by rewrite merge_sort_Permutation).
    destruct sorted as [|first others]; [done|].
    assert (Hin : first.1.1 ∈ Sql.unique (Sql.scalars (Sql.limit 1000 (first :: others)))).
    { rewrite elem_of_unique. cbn. apply elem_of_cons. by left. }
    rewrite Hnil in Hin. by apply elem_of_nil in Hin.
  - intros ->. reflexivity.
Qed.

(** X6. Waiting never takes a row out of the selection: a joined row that
    passes the WHERE clause at one time passes it at every later time, in
    either dimension. *)
Theorem where_stage_monotone_in_time (d : Dimension) (db : Db) (now later : Z)
    (row : Sql.Row) :
  now ≤ later →
  row ∈ where_stage d db now →
  row ∈ where_stage d db later.
Proof.
  destruct row as [[i o] r]. intros Hle. rewrite !where_stage_spec.
  intros (Hjoin & Hi & Ho & Hr & Hinst & Hfresh). split; [done|].
  repeat split; try done.
  destruct Hfresh as [Hnone|(t & Ht & Hlt)]; [by left|].
  right. exists t. split; [done|lia].
Qed.

Lemma where_stage_monotone_in_time_witness :
  (Sample.t2_record, Sample.org, Sample.repo)
    ∈ where_stage Body Sample.db (Sample.now + 5).
Proof.
  apply (where_stage_monotone_in_time Body Sample.db Sample.now (Sample.now + 5));
    [lia|].
  apply list_elem_of_In. vm_compute. tauto.
Defined.

Lemma select_candidates_keeps_oldest_witness :
  Sql.asc (freshness Body (Sample.issue_at 7 (Some 7) (Some 7)))
          (freshness Body (Sample.issue_at 1001 (Some 1001) (Some 1001))).
Proof.
  apply (select_candidates_keeps_oldest Body Sample.crowded Sample.now
           (Sample.issue_at 7 (Some 7) (Some 7))
           (Sample.issue_at 1001 (Some 1001) (Some 1001))
           Sample.org Sample.repo);
    apply (bool_decide_unpack _); vm_compute; exact I.
Defined.

(** * Further properties of [sync_issue] *)

Lemma keyed_by_id_lookup (db : Db) (k : Z) (i : Issue.t) :
  keyed_by_id db → issues db !! k = Some i → Issue.id i = k.
Proof. intros Hkeyed Hk. by apply (Hkeyed k i). Qed.

Lemma select_candidates_due (d : Dimension) (db : Db) (now : Z) (i : Issue.t) :
  i ∈ select_candidates d db now →
  ∃ k o r, issues db !! k = Some i ∧ due d now i o r.
Proof.
  rewrite select_candidates_pipeline. intros Hin.
  apply pipeline_elem in Hin as (o & r & Hin).
  apply where_stage_spec in Hin as [Hjoin Hdue].
  apply elem_of_select_join in Hjoin as ((k & Hk) & _). eauto.
Qed.

Section SyncThenCrawl.
Context (from_github : GitHubIssue → Z → Z → IssueCreate)
        (upsert_many_impl : Db → list IssueCreate → Exn + (Db * list Issue.t))
        (issue_upserted_impl : Issue.t → option Exn).
Context (remote : Remote) (utcnow : Z)
        (org : Organization.t) (repo : Repository.t) (issue : Issue.t)
        (crawl_with_installation_id : option Z) (db : Db) (client : Z).

Abbreviation synced :=
  (store_after
     (sync_issue from_github upsert_many_impl issue_upserted_impl remote utcnow
        org repo issue crawl_with_installation_id db)).

(** X7. Once the fetch of a stored issue has failed with 410, neither crawl
    query answers a record with that issue's id again, at any time: the soft
    delete takes the issue out of the crawl. *)
Theorem gone_issue_leaves_the_crawl :
  keyed_by_id db →
  issues db !! Issue.id issue = Some issue →
  installation_id_for org crawl_with_installation_id = Some client →
  client ≠ 0 →
  remote client
    (issue_url (Organization.name org) (Repository.name repo) (Issue.number issue))
    (Issue.github_issue_etag issue) = inl (RequestFailed 410) →
  ∀ d later i', i' ∈ select_candidates d synced later →
                Issue.id i' ≠ Issue.id issue.
Proof.
  intros Hkeyed Hrow Hinst Hzero Hans d later i' Hin Hid.
  rewrite (sync_issue_410 _ _ _ _ _ _ _ _ _ _ client Hinst Hzero Hans) in Hin.
  cbn [store_after] in Hin.
  apply select_candidates_due in Hin as (k & o & r & Hk & Hnone & _).
  cbn in Hk. destruct (decide (k = Issue.id issue)) as [->|Hne].
  - rewrite lookup_alter_eq, Hrow in Hk. cbn in Hk.
    injection Hk as <-. done.
  - rewrite lookup_alter_ne in Hk by done.
    apply (keyed_by_id_lookup _ _ _ Hkeyed) in Hk. congruence.
Qed.

(** X8. Once the fetch of a stored issue has failed with 404 at time
    [utcnow], the body crawl query answers no record with that issue's id at
    any time up to one hour after [utcnow]: the issue is marked as crawled. *)
Theorem not_found_issue_rests_an_hour :
  keyed_by_id db →
  issues db !! Issue.id issue = Some issue →
  installation_id_for org crawl_with_installation_id = Some client →
  client ≠ 0 →
  remote client
    (issue_url (Organization.name org) (Repository.name repo) (Issue.number issue))
    (Issue.github_issue_etag issue) = inl (RequestFailed 404) →
  ∀ later i', later ≤ utcnow + timedelta_hours 1 →
              i' ∈ select_candidates Body synced later →
              Issue.id i' ≠ Issue.id issue.
Proof.
  intros Hkeyed Hrow Hinst Hzero Hans later i' Hlater Hin Hid.
  rewrite (sync_issue_404 _ _ _ _ _ _ _ _ _ _ client Hinst Hzero Hans) in Hin.
  cbn [store_after] in Hin.
  apply select_candidates_due in Hin as (k & o & r & Hk & _ & _ & _ & _ & Hfresh).
  cbn in Hk. destruct (decide (k = Issue.id issue)) as [->|Hne].
  - rewrite lookup_alter_eq, Hrow in Hk. cbn in Hk. rewrite flush_loaded in Hk.
    injection Hk as <-. cbn in Hfresh.
    destruct Hfresh as [?|(t & [= <-] & Hlt)]; [done|lia].
  - rewrite lookup_alter_ne in Hk by done.
    apply (keyed_by_id_lookup _ _ _ Hkeyed) in Hk. congruence.
Qed.
End SyncThenCrawl.

Lemma gone_issue_leaves_the_crawl_witness :
  Forall (λ i', Issue.id i' ≠ 2)
    (select_candidates Body
       (store_after (Sample.sync (Sample.failure 410) Sample.t1_record))
       (Sample.now + 5)).
Proof.
  apply Forall_forall. intros i' Hin.
  refine (gone_issue_leaves_the_crawl Sample.from_github Sample.upsert_many_impl
            Sample.issue_upserted_impl (Sample.failure 410) Sample.now Sample.org
            Sample.repo Sample.t1_record None Sample.db 77
            _ eq_refl eq_refl ltac:(lia) eq_refl Body (Sample.now + 5) i' Hin).
  apply (bool_decide_unpack _). vm_compute. exact I.
Defined.

Lemma not_found_issue_rests_an_hour_witness :
  Forall (λ i', Issue.id i' ≠ 2)
    (select_candidates Body
       (store_after (Sample.sync (Sample.failure 404) Sample.t1_record))
       (Sample.now + 5)).
Proof.
  apply Forall_forall. intros i' Hin.
  refine (not_found_issue_rests_an_hour Sample.from_github Sample.upsert_many_impl
            Sample.issue_upserted_impl (Sample.failure 404) Sample.now Sample.org
            Sample.repo Sample.t1_record None Sample.db 77
            _ eq_refl eq_refl ltac:(lia) eq_refl (Sample.now + 5) i'
            ltac:(unfold timedelta_hours; lia) Hin).
  apply (bool_decide_unpack _). vm_compute. exact I.
Defined.

Lemma headers_filter_none (key : string) (h : Headers.t) :
  Forall (λ line, Headers.lower line.1 ≠ key) h →
  filter (λ line : string * string, Headers.lower line.1 = key) h = [].
Proof.
  induction h as [|line rest IH]; intros Hall; [done|].
  apply Forall_cons in Hall as [Hne Hrest].
  rewrite filter_cons, decide_False by exact Hne. by apply IH.
Qed.

Lemma headers_get_none (h : Headers.t) :
  Forall (λ line, Headers.lower line.1 ≠ "etag") h →
  Headers.get "etag" h = None.
Proof.
  intros Hnone. unfold Headers.get.
  change (Headers.lower "etag") with "etag".
  by rewrite headers_filter_none.
Qed.

Lemma headers_get_one (before after : Headers.t) (name value : string) :
  Headers.lower name = "etag" →
  Forall (λ line, Headers.lower line.1 ≠ "etag") (before ++ after) →
  Headers.get "etag" (before ++ (name, value) :: after) = Some value.
Proof.
  intros Hname Hothers. apply Forall_app in Hothers as [Hbefore Hafter].
  unfold Headers.get. change (Headers.lower "etag") with "etag".
  rewrite filter_app, filter_cons_True by done.
  rewrite !headers_filter_none by done. reflexivity.
Qed.

Section SyncPaths.
Context (from_github : GitHubIssue → Z → Z → IssueCreate)
        (upsert_many_impl : Db → list IssueCreate → Exn + (Db * list Issue.t))
        (issue_upserted_impl : Issue.t → option Exn).
Context (remote : Remote) (utcnow : Z)
        (org : Organization.t) (repo : Repository.t) (issue : Issue.t)
        (crawl_with_installation_id : option Z) (db : Db).

Abbreviation sync_here :=
  (sync_issue from_github upsert_many_impl issue_upserted_impl remote utcnow
     org repo issue crawl_with_installation_id db).
Abbreviation the_request client :=
  (ApiRequest client
     (issue_url (Organization.name org) (Repository.name repo) (Issue.number issue))
     (Issue.github_issue_etag issue)).
Abbreviation the_answer client :=
  (remote client
     (issue_url (Organization.name org) (Repository.name repo) (Issue.number issue))
     (Issue.github_issue_etag issue)).

(** What [store] emits: the one write, then hook calls for a prefix of the
    records the write answered. *)
Lemma store_emitted (data : GitHubIssue) (db0 : Db) :
  ∃ schemas records,
    emitted (store from_github upsert_many_impl issue_upserted_impl data org repo db0)
    = UpsertMany schemas :: (HookCall <$> records).
Proof.
  rewrite store_run. cbv zeta. cbn [emitted]. rewrite store_many_run. cbv zeta.
  destruct (upsert_many_impl db0 _) as [e|[db' records]].
  - eexists _, []. reflexivity.
  - cbn [emitted]. destruct (hooks_in_order issue_upserted_impl records db') as [n ->].
    by eexists _, _.
Qed.

Lemma sync_issue_200_run (client : Z) (res : Response) :
  installation_id_for org crawl_with_installation_id = Some client →
  client ≠ 0 →
  the_answer client = inr res →
  status_code res = 200 →
  let stored := store from_github upsert_many_impl issue_upserted_impl
                  (parsed_data res) org repo db in
  let issue' :=
    Issue.set_github_issue_etag (Headers.get "etag" (headers res))
      (Issue.set_github_issue_fetched_at (Some utcnow) issue) in
  let prefix := [LogInfo "github.sync_issue"; the_request client;
                 LogInfo "github.sync_issue.etag_cache_miss"] in
  sync_here
  = match outcome stored with
    | inl e => mkRes (inl e) (store_after stored) (prefix ++ emitted stored)
    | inr _ =>
        mkRes (inr issue')
          (with_issues
             (alter (Issue.flush issue issue') (Issue.id issue)
                (issues (store_after stored)))
             (store_after stored))
          (prefix ++ emitted stored ++ [Save issue'])
    end.
Proof.
  intros Hinst Hzero Hans Hst. cbv zeta. unfold sync_issue.
  rewrite Hinst, (bool_decide_eq_false_2 _ Hzero).
  unfold bind at 1 2, attempt, emit, async_issues_get_with_headers.
  cbn [outcome store_after emitted]. rewrite Hans, Hst.
  change (bool_decide (200 = 304)) with false.
  change (bool_decide (200 = 200)) with true. cbv iota.
  unfold bind, emit. cbn [outcome store_after emitted].
  destruct (store _ _ _ (parsed_data res) org repo db) as [[e|record] db' evs];
    cbn; rewrite ?app_nil_r; reflexivity.
Qed.

(** X9. With no usable installation id (neither the override nor the
    organization's is set and non-zero) [sync_issue] raises before anything
    else happens: no request is sent, nothing is logged or written. *)
Theorem sync_issue_without_installation :
  (crawl_with_installation_id = None ∨ crawl_with_installation_id = Some 0) →
  (Organization.installation_id org = None
   ∨ Organization.installation_id org = Some 0) →
  sync_here = mkRes (inl NoInstallationId) db [].
Proof.
  intros Hcrawl Horg. apply sync_issue_no_installation.
  unfold installation_id_for.
  destruct Hcrawl as [-> | ->], Horg as [-> | ->]; cbn; auto.
Qed.

(** X10. With a usable installation id [sync_issue] sends exactly one
    request, whatever the remote answers: to the issue's URL, with the
    issue's stored etag as validator, as the client of the override when that
    is set and non-zero and of the organization's installation otherwise. *)
Theorem sync_issue_sends_one_request (client : Z) :
  installation_id_for org crawl_with_installation_id = Some client →
  client ≠ 0 →
  filter (λ ev, is_api_request ev) (emitted sync_here) = [the_request client]
  ∧ (∀ n, crawl_with_installation_id = Some n → n ≠ 0 → client = n)
  ∧ (crawl_with_installation_id = None ∨ crawl_with_installation_id = Some 0 →
     Organization.installation_id org = Some client).
Proof.
  intros Hinst Hzero. split; [|split].
  - destruct (the_answer client) as [e|res] eqn:Hans.
    + destruct (decide (e = RequestFailed 404)) as [->|H404];
        [by rewrite (sync_issue_404 _ _ _ _ _ _ _ _ _ _ client Hinst Hzero Hans)|].
      destruct (decide (e = RequestFailed 410)) as [->|H410];
        [by rewrite (sync_issue_410 _ _ _ _ _ _ _ _ _ _ client Hinst Hzero Hans)|].
      by rewrite (sync_issue_raises _ _ _ _ _ _ _ _ _ _ client Hinst Hzero e Hans H404 H410).
    + destruct (decide (status_code res = 304)) as [H304|H304];
        [by rewrite (sync_issue_304 _ _ _ _ _ _ _ _ _ _ client Hinst Hzero res Hans H304)|].
      destruct (decide (status_code res = 200)) as [H200|H200];
        [|by rewrite (sync_issue_ignored _ _ _ _ _ _ _ _ _ _ client Hinst Hzero res Hans H304 H200)].
      rewrite (sync_issue_200_run client res Hinst Hzero Hans H200). cbv zeta.
      destruct (store_emitted (parsed_data res) db) as (schemas & records & Hev).
      assert (Hpre : ∀ rest,
        filter (λ ev, is_api_request ev)
          ([LogInfo "github.sync_issue"; the_request client;
            LogInfo "github.sync_issue.etag_cache_miss"]
           ++ UpsertMany schemas :: rest)
        = the_request client :: filter (λ ev, is_api_request ev) rest)
        by reflexivity.
      assert (Hnone : ∀ tail,
        filter (λ ev, is_api_request ev) ((HookCall <$> records) ++ tail)
        = filter (λ ev, is_api_request ev) tail).
      { clear. intros tail. induction records as [|record rest IH]; [done|].
        exact IH. }
      destruct (outcome (store _ _ _ (parsed_data res) org repo db));
        cbn [emitted]; rewrite Hev.
      * etrans; [apply Hpre|]. f_equal.
        rewrite <- (app_nil_r (HookCall <$> records)). apply Hnone.
      * etrans; [apply (Hpre ((HookCall <$> records) ++ [Save _]))|]. f_equal.
        etrans; [apply Hnone|]. reflexivity.
  - intros n -> Hn. unfold installation_id_for in Hinst.
    rewrite bool_decide_eq_false_2 in Hinst by done. congruence.
  - intros [-> | ->]; exact Hinst.
Qed.

(** X11. A response with status 200: when [store] raises, [sync_issue] raises
    the same exception and the new etag and timestamp are not saved; when
    [store] returns, [sync_issue] saves the object with
    [github_issue_fetched_at] set to the current time and [github_issue_etag]
    set to what [headers.get("etag", None)] answers (the header is found
    whatever the case of its name; null when it is absent), after the upsert
    and as its last write, and the result is Upserted. *)
Theorem sync_issue_fresh (client : Z) (res : Response) :
  installation_id_for org crawl_with_installation_id = Some client →
  client ≠ 0 →
  the_answer client = inr res →
  status_code res = 200 →
  let stored := store from_github upsert_many_impl issue_upserted_impl
                  (parsed_data res) org repo db in
  let issue' :=
    Issue.set_github_issue_etag (Headers.get "etag" (headers res))
      (Issue.set_github_issue_fetched_at (Some utcnow) issue) in
  (∀ e, outcome stored = inl e →
        outcome sync_here = inl e
        ∧ store_after sync_here = store_after stored
        ∧ store_writes (emitted sync_here) = store_writes (emitted stored))
  ∧ (∀ record, outcome stored = inr record →
        outcome sync_here = inr issue'
        ∧ sync_result sync_here = Upserted
        ∧ store_writes (emitted sync_here)
            = store_writes (emitted stored) ++ [Save issue']
        ∧ Issue.github_issue_fetched_at issue' = Some utcnow
        ∧ Issue.github_issue_etag issue' = Headers.get "etag" (headers res)
        ∧ issues (store_after sync_here)
            = alter (Issue.flush issue issue') (Issue.id issue)
                (issues (store_after stored)))
  ∧ (∀ before name value after,
        headers res = before ++ (name, value) :: after →
        Headers.lower name = "etag" →
        Forall (λ line, Headers.lower line.1 ≠ "etag") (before ++ after) →
        Issue.github_issue_etag issue' = Some value)
  ∧ (Forall (λ line, Headers.lower line.1 ≠ "etag") (headers res) →
        Issue.github_issue_etag issue' = None).
Proof.
  intros Hinst Hzero Hans Hst. cbv zeta.
  rewrite (sync_issue_200_run client res Hinst Hzero Hans Hst). cbv zeta.
  destruct (store_emitted (parsed_data res) db) as (schemas & records & Hev).
  assert (Hhooks : ∀ tail, existsb is_soft_delete ((HookCall <$> records) ++ tail)
                           = existsb is_soft_delete tail).
  { clear. intros tail. induction records as [|record rest IH]; [done|]. exact IH. }
  split; [|split; [|split]].
  - intros e He. rewrite He. cbn. repeat split.
  - intros record Hrec. rewrite Hrec. cbn [outcome store_after emitted].
    repeat split.
    + unfold sync_result. cbn [outcome emitted]. rewrite Hev. cbn.
      rewrite Hhooks. reflexivity.
    + unfold store_writes. rewrite !filter_app. reflexivity.
  - intros before name value after Hh Hname Hothers. cbn.
    rewrite Hh. by apply headers_get_one.
  - intros Hnone. cbn. by apply headers_get_none.
Qed.

(** X12. A response that is no error and has a status other than 304 and 200
    is dropped: [sync_issue] returns normally, writes nothing and leaves the
    store as it was. *)
Theorem sync_issue_other_status (client : Z) (res : Response) :
  installation_id_for org crawl_with_installation_id = Some client →
  client ≠ 0 →
  the_answer client = inr res →
  status_code res ≠ 304 →
  status_code res ≠ 200 →
  outcome sync_here = inr issue
  ∧ sync_result sync_here = Unchanged
  ∧ store_writes (emitted sync_here) = []
  ∧ store_after sync_here = db.
Proof.
  intros Hinst Hzero Hans H304 H200.
  rewrite (sync_issue_ignored _ _ _ _ _ _ _ _ _ _ client Hinst Hzero res Hans H304 H200).
  repeat split.
Qed.
End SyncPaths.

Lemma sync_issue_without_installation_witness :
  sync_issue Sample.from_github Sample.upsert_many_impl Sample.issue_upserted_impl
    (Sample.answer 200) Sample.now (Organization.mk 2 "solo" None None)
    Sample.repo Sample.t1_record (Some 0) Sample.db
  = mkRes (inl NoInstallationId) Sample.db [].
Proof.
  apply sync_issue_without_installation; [by right|by left].
Defined.

Lemma sync_issue_sends_one_request_witness :
  filter (λ ev, is_api_request ev)
    (emitted (sync_issue Sample.from_github Sample.upsert_many_impl
                Sample.issue_upserted_impl (Sample.answer 200) Sample.now
                Sample.org Sample.repo Sample.t1_record (Some 99) Sample.db))
  = [ApiRequest 99 "/repos/acme/widgets/issues/2" (Some "abc")].
Proof.
  exact (proj1 (sync_issue_sends_one_request Sample.from_github
    Sample.upsert_many_impl Sample.issue_upserted_impl (Sample.answer 200)
    Sample.now Sample.org Sample.repo Sample.t1_record (Some 99) Sample.db 99
    eq_refl ltac:(lia))).
Defined.

Lemma sync_issue_fresh_witness :
  let r := Sample.sync (Sample.answer 200) Sample.t1_record in
  sync_result r = Upserted
  ∧ outcome r = inr (Issue.set_github_issue_etag (Some "xyz")
                      (Issue.set_github_issue_fetched_at (Some Sample.now)
                         Sample.t1_record)).
Proof.
  pose proof (proj1 (proj2 (sync_issue_fresh Sample.from_github
    Sample.upsert_many_impl Sample.issue_upserted_impl (Sample.answer 200)
    Sample.now Sample.org Sample.repo Sample.t1_record None Sample.db 77
    (mkResponse 200 Sample.gh_issue
       [("Content-Type", "application/json"); ("ETag", "xyz")])
    eq_refl ltac:(lia) eq_refl eq_refl)) _ eq_refl)
    as (Hout & Hres & _).
  cbv zeta. split; [exact Hres|exact Hout].
Defined.

Lemma sync_issue_other_status_witness :
  let r := Sample.sync (Sample.answer 301) Sample.t1_record in
  outcome r = inr Sample.t1_record
  ∧ sync_result r = Unchanged
  ∧ store_writes (emitted r) = []
  ∧ store_after r = Sample.db.
Proof.
  apply (sync_issue_other_status Sample.from_github Sample.upsert_many_impl
    Sample.issue_upserted_impl (Sample.answer 301) Sample.now Sample.org
    Sample.repo Sample.t1_record None Sample.db 77
    (mkResponse 301 Sample.gh_issue [("Content-Type", "application/json"); ("ETag", "xyz")]));
    try reflexivity; cbn; lia.
Defined.

Lemma stored_timeline_soft_delete (t k id : Z) (db : Db) :
  stored_timeline_fetched_at k
    (with_issues (alter (Issue.set_deleted_at (Some t)) id (issues db)) db)
  = stored_timeline_fetched_at k db.
Proof.
  unfold stored_timeline_fetched_at. cbn. destruct (decide (id = k)) as [->|Hne].
  - rewrite lookup_alter_eq. by destruct (issues db !! k).
  - by rewrite lookup_alter_ne.
Qed.

Lemma stored_timeline_save (k : Z) (loaded current : Issue.t) (db : Db) :
  Issue.github_timeline_fetched_at current = Issue.github_timeline_fetched_at loaded →
  stored_timeline_fetched_at k
    (with_issues (alter (Issue.flush loaded current) (Issue.id loaded) (issues db)) db)
  = stored_timeline_fetched_at k db.
Proof.
  intros Hsame. unfold stored_timeline_fetched_at. cbn.
  destruct (decide (Issue.id loaded = k)) as [->|Hne];
    [|by rewrite lookup_alter_ne].
  rewrite lookup_alter_eq. destruct (issues db !! k) as [row|]; cbn; [|done].
  unfold Issue.written. by rewrite decide_True.
Qed.

Section Independence.
Context (from_github : GitHubIssue → Z → Z → IssueCreate)
        (upsert_many_impl : Db → list IssueCreate → Exn + (Db * list Issue.t))
        (issue_upserted_impl : Issue.t → option Exn).

(** X13. A body sync never moves a timeline timestamp: whatever the remote
    answers, [sync_issue] leaves [github_timeline_fetched_at] of every stored
    row as it was, provided the upsert collaborator does not write that
    column. *)
Theorem sync_issue_keeps_timeline (remote : Remote) (utcnow : Z)
    (org : Organization.t) (repo : Repository.t) (issue : Issue.t)
    (crawl_with_installation_id : option Z) (db : Db) (k : Z) :
  upsert_keeps_timeline upsert_many_impl →
  stored_timeline_fetched_at k
    (store_after (sync_issue from_github upsert_many_impl issue_upserted_impl
                    remote utcnow org repo issue crawl_with_installation_id db))
  = stored_timeline_fetched_at k db.
Proof.
  intros Hkeep.
  destruct (installation_id_for org crawl_with_installation_id) as [client|] eqn:Hinst;
    [|by rewrite sync_issue_no_installation by auto].
  destruct (decide (client = 0)) as [->|Hzero];
    [by rewrite sync_issue_no_installation by auto|].
  destruct (remote client
    (issue_url (Organization.name org) (Repository.name repo) (Issue.number issue))
    (Issue.github_issue_etag issue)) as [e|res] eqn:Hans.
  - destruct (decide (e = RequestFailed 404)) as [->|H404].
    { rewrite (sync_issue_404 _ _ _ _ _ _ _ _ _ _ client Hinst Hzero Hans).
      cbn [store_after]. by apply stored_timeline_save. }
    destruct (decide (e = RequestFailed 410)) as [->|H410].
    { rewrite (sync_issue_410 _ _ _ _ _ _ _ _ _ _ client Hinst Hzero Hans).
      cbn [store_after]. apply stored_timeline_soft_delete. }
    by rewrite (sync_issue_raises _ _ _ _ _ _ _ _ _ _ client Hinst Hzero e Hans H404 H410).
  - destruct (decide (status_code res = 304)) as [H304|H304];
      [by rewrite (sync_issue_304 _ _ _ _ _ _ _ _ _ _ client Hinst Hzero res Hans H304)|].
    destruct (decide (status_code res = 200)) as [H200|H200];
      [|by rewrite (sync_issue_ignored _ _ _ _ _ _ _ _ _ _ client Hinst Hzero res Hans H304 H200)].
    rewrite (sync_issue_200_run _ _ _ _ _ _ _ _ _ _ client res Hinst Hzero Hans H200).
    cbv zeta.
    assert (Hstore : stored_timeline_fetched_at k
              (store_after (store from_github upsert_many_impl issue_upserted_impl
                              (parsed_data res) org repo db))
            = stored_timeline_fetched_at k db).
    { rewrite store_run. cbv zeta. cbn [store_after].
      rewrite store_many_run. cbv zeta.
      destruct (upsert_many_impl db _) as [e|[db' records]] eqn:Hup; [done|].
      cbn [store_after]. rewrite hooks_keep_store. by eapply Hkeep. }
    destruct (outcome (store _ _ _ (parsed_data res) org repo db));
      cbn [store_after]; [done|].
    rewrite <- Hstore. by apply stored_timeline_save.
Qed.
End Independence.

Lemma sample_upsert_keeps_timeline :
  upsert_keeps_timeline Sample.upsert_many_impl.
Proof. intros db schemas db' records k [= <- _]. reflexivity. Qed.

Lemma sync_issue_keeps_timeline_witness :
  stored_timeline_fetched_at 2
    (store_after (Sample.sync (Sample.answer 200) Sample.t1_record))
  = Some Sample.t1.
Proof.
  unfold Sample.sync.
  rewrite (sync_issue_keeps_timeline Sample.from_github Sample.upsert_many_impl
             Sample.issue_upserted_impl (Sample.answer 200) Sample.now
             Sample.org Sample.repo Sample.t1_record None Sample.db 2
             sample_upsert_keeps_timeline).
  reflexivity.
Defined.

(** * Further properties of [store] and [store_many] *)

Section UpsertEdges.
Context (from_github : GitHubIssue → Z → Z → IssueCreate)
        (upsert_many_impl : Db → list IssueCreate → Exn + (Db * list Issue.t))
        (issue_upserted_impl : Issue.t → option Exn).

Lemma hooks_stop_at_failure (passed : list Issue.t) (failed : Issue.t)
    (skipped : list Issue.t) (e : Exn) (db : Db) :
  Forall (λ record, issue_upserted_impl record = None) passed →
  issue_upserted_impl failed = Some e →
  for_each (issue_upserted_call issue_upserted_impl)
    (passed ++ failed :: skipped) db
  = mkRes (inl e) db (HookCall <$> (passed ++ [failed])).
Proof.
  intros Hpassed Hfailed.
  induction Hpassed as [|record rest Hnone _ IH]; cbn [app].
  - by rewrite hooks_cons, Hfailed.
  - by rewrite hooks_cons, Hnone, IH.
Qed.

(** X14. When the write answers no record for the one input, [store] raises
    an index error: the write has been performed, no hook has been
    dispatched. *)
Theorem store_without_record (data : GitHubIssue)
    (organization : Organization.t) (repository : Repository.t) (db db' : Db) :
  upsert_many_impl db
    [from_github data (Organization.id organization) (Repository.id repository)]
  = inr (db', []) →
  store from_github upsert_many_impl issue_upserted_impl data
    organization repository db
  = mkRes (inl IndexError) db'
      [UpsertMany [from_github data (Organization.id organization)
                     (Repository.id repository)]].
Proof.
  intros Hup. rewrite store_run. cbv zeta. rewrite store_many_run. cbv zeta.
  cbn [fmap list_fmap]. rewrite Hup. reflexivity.
Qed.

(** X15. When the hook of one returned record raises, [store_many] raises
    that exception: the batch write stays in the store, the hooks of the
    records before it and its own have been dispatched, in order, and the
    hooks of the records after it are not dispatched. *)
Theorem store_many_hook_failure (data : list GitHubIssue)
    (organization : Organization.t) (repository : Repository.t) (db db' : Db)
    (passed : list Issue.t) (failed : Issue.t) (skipped : list Issue.t) (e : Exn) :
  data ≠ [] →
  upsert_many_impl db
    ((λ issue, from_github issue (Organization.id organization)
                 (Repository.id repository)) <$> data)
  = inr (db', passed ++ failed :: skipped) →
  Forall (λ record, issue_upserted_impl record = None) passed →
  issue_upserted_impl failed = Some e →
  store_many from_github upsert_many_impl issue_upserted_impl data
    organization repository db
  = mkRes (inl e) db'
      (UpsertMany ((λ issue, from_github issue (Organization.id organization)
                               (Repository.id repository)) <$> data)
       :: (HookCall <$> (passed ++ [failed]))).
Proof.
  intros Hne Hup Hpassed Hfailed. destruct data as [|d ds]; [done|].
  rewrite store_many_run. cbv zeta. rewrite Hup.
  by rewrite (hooks_stop_at_failure _ _ _ e db' Hpassed Hfailed).
Qed.
End UpsertEdges.

Lemma store_without_record_witness :
  store Sample.from_github Sample.silent_upsert Sample.issue_upserted_impl
    Sample.gh_issue Sample.org Sample.repo Sample.db
  = mkRes (inl IndexError) Sample.db
      [UpsertMany [Sample.from_github Sample.gh_issue 1 10]].
Proof.
  apply (store_without_record Sample.from_github Sample.silent_upsert
           Sample.issue_upserted_impl Sample.gh_issue Sample.org Sample.repo
           Sample.db Sample.db eq_refl).
Defined.

Lemma store_many_hook_failure_witness :
  let data := [mkGitHubIssue 5002 2 "a"; mkGitHubIssue 5003 3 "b";
               mkGitHubIssue 5004 4 "c"] in
  let records := Sample.record_of <$>
                   ((λ g, Sample.from_github g 1 10) <$> data) in
  store_many Sample.from_github Sample.upsert_many_impl Sample.picky_hook data
    Sample.org Sample.repo Sample.db
  = mkRes (inl (OtherError "hook failed")) Sample.db
      (UpsertMany ((λ g, Sample.from_github g 1 10) <$> data)
       :: (HookCall <$> take 2 records)).
Proof.
  cbv zeta.
  apply (store_many_hook_failure Sample.from_github Sample.upsert_many_impl
           Sample.picky_hook _ Sample.org Sample.repo Sample.db Sample.db
           [Sample.record_of (Sample.from_github (mkGitHubIssue 5002 2 "a") 1 10)]
           (Sample.record_of (Sample.from_github (mkGitHubIssue 5003 3 "b") 1 10))
           [Sample.record_of (Sample.from_github (mkGitHubIssue 5004 4 "c") 1 10)]
           (OtherError "hook failed"));
    [discriminate|reflexivity|by repeat constructor|reflexivity].
Defined.

(** * The request URL *)

(** X16. For one owner and repository, the request URL determines the issue
    number: two issues of a repository are never fetched from the same
    URL. *)
Theorem issue_url_number_inj (owner repo : string) (n m : Z) :
  issue_url owner repo n = issue_url owner repo m → n = m.
Proof.
  unfold issue_url. intros Heq.
  do 5 apply String.app_inj in Heq. by apply pretty_Z_inj in Heq.
Qed.

Lemma issue_url_number_inj_witness :
  issue_url "acme" "widgets" 7 = "/repos/acme/widgets/issues/7" ∧ 7 = 7.
Proof.
  split; [reflexivity|].
  exact (issue_url_number_inj "acme" "widgets" 7 7 eq_refl).
Defined.

(** * Properties of [embed_badge] and [remove_badge] *)

Section BadgeFacts.
Context (should_add_badge should_remove_badge :
           Organization.t → Repository.t → Issue.t → bool → bool * string)
        (embed_impl remove_impl :
           Organization.t → Repository.t → Issue.t → option Exn).

Abbreviation embed := (embed_badge should_add_badge embed_impl).
Abbreviation remove := (remove_badge should_remove_badge remove_impl).
Abbreviation run_badges :=
  (badge_run should_add_badge should_remove_badge embed_impl remove_impl).

(** X17. [embed_badge] answers [True] only on the path that embedded the
    badge.  When the badge should not be added it answers [False] without
    calling [badge.embed()] and without writing; when [badge.embed()] raises
    the columns are not written; otherwise the issue's row gets
    [pledge_badge_embedded_at] set to the current time and
    [pledge_badge_ever_embedded] set, and no other row changes. *)
Theorem embed_badge_outcomes (utc_now : Z) (organization : Organization.t)
    (repository : Repository.t) (issue : Issue.t) (triggered_from_label : bool)
    (tbl : gmap Z Badge.columns) :
  let r := embed utc_now organization repository issue triggered_from_label tbl in
  let verdict :=
    should_add_badge organization repository issue triggered_from_label in
  (verdict.1 = false →
     r = mkBadgeRes (inr false) tbl [BadgeLog false verdict.2 (Issue.id issue)])
  ∧ (∀ e, verdict.1 = true →
          embed_impl organization repository issue = Some e →
          r = mkBadgeRes (inl e) tbl [BadgeEmbed (Issue.id issue)])
  ∧ (verdict.1 = true →
     embed_impl organization repository issue = None →
     badge_outcome r = inr true
     ∧ badge_after r !! Issue.id issue
         = (λ _, Badge.mk (Some utc_now) true) <$> tbl !! Issue.id issue
     ∧ ∀ k, k ≠ Issue.id issue → badge_after r !! k = tbl !! k)
  ∧ (badge_outcome r = inr true →
     verdict.1 = true ∧ embed_impl organization repository issue = None).
Proof.
  cbv zeta. unfold embed_badge, update_badge.
  destruct (should_add_badge organization repository issue triggered_from_label)
    as [[|] reason]; cbn [fst snd negb];
    destruct (embed_impl organization repository issue) as [e|]; cbn;
    repeat split; try done.
  - by intros ? _ [= <-].
  - apply lookup_alter_eq.
  - intros k Hk. by apply lookup_alter_ne.
Qed.

(** X18. [remove_badge] answers [False] on every path that returns, also
    after it has removed the badge; a removal clears
    [pledge_badge_embedded_at] on the issue's row and leaves
    [pledge_badge_ever_embedded] set. *)
Theorem remove_badge_outcomes (organization : Organization.t)
    (repository : Repository.t) (issue : Issue.t) (triggered_from_label : bool)
    (tbl : gmap Z Badge.columns) :
  let r := remove organization repository issue triggered_from_label tbl in
  let verdict :=
    should_remove_badge organization repository issue triggered_from_label in
  badge_outcome r ≠ inr true
  ∧ (verdict.1 = false → badge_after r = tbl ∧ badge_outcome r = inr false)
  ∧ (verdict.1 = true →
     remove_impl organization repository issue = None →
     badge_outcome r = inr false
     ∧ badge_after r !! Issue.id issue
         = (λ _, Badge.mk None true) <$> tbl !! Issue.id issue
     ∧ ∀ k, k ≠ Issue.id issue → badge_after r !! k = tbl !! k).
Proof.
  cbv zeta. unfold remove_badge, update_badge.
  destruct (should_remove_badge organization repository issue triggered_from_label)
    as [[|] reason]; cbn [fst snd negb];
    destruct (remove_impl organization repository issue) as [e|]; cbn;
    repeat split; try done.
  - apply lookup_alter_eq.
  - intros k Hk. by apply lookup_alter_ne.
Qed.

Lemma badge_call_row (c : BadgeCall) (tbl : gmap Z Badge.columns) (k : Z) :
  badge_after (badge_call should_add_badge should_remove_badge embed_impl
                 remove_impl c tbl) !! k = tbl !! k
  ∨ ∃ at_, tbl !! k ≠ None
           ∧ badge_after (badge_call should_add_badge should_remove_badge
                            embed_impl remove_impl c tbl) !! k
             = Some (Badge.mk at_ true).
Proof.
  assert (Hupd : ∀ id values,
    update_badge id values tbl !! k = tbl !! k
    ∨ (tbl !! k ≠ None ∧ update_badge id values tbl !! k = Some values)).
  { intros id values. unfold update_badge.
    destruct (decide (id = k)) as [->|Hne]; [|left; by apply lookup_alter_ne].
    rewrite lookup_alter_eq. destruct (tbl !! k); cbn; [right|left]; done. }
  destruct c as [utc_now o r i label|o r i label]; cbn;
    unfold embed_badge, remove_badge.
  - destruct (should_add_badge o r i label) as [[|] reason]; cbn; [|by left].
    destruct (embed_impl o r i); cbn; [by left|].
    destruct (Hupd (Issue.id i) (Badge.mk (Some utc_now) true)) as [?|[? ?]];
      [by left|right; eauto].
  - destruct (should_remove_badge o r i label) as [[|] reason]; cbn; [|by left].
    destruct (remove_impl o r i); cbn; [by left|].
    destruct (Hupd (Issue.id i) (Badge.mk None true)) as [?|[? ?]];
      [by left|right; eauto].
Qed.

(** X19. Along any sequence of [embed_badge] and [remove_badge] calls the
    table keeps its rows (an issue with no row gets none, a row is never
    dropped), and [pledge_badge_ever_embedded], once set on a row, stays
    set. *)
Theorem badge_ever_embedded_sticks (calls : list BadgeCall)
    (tbl : gmap Z Badge.columns) (k : Z) :
  (tbl !! k = None ↔ run_badges calls tbl !! k = None)
  ∧ ∀ c, tbl !! k = Some c →
         Badge.pledge_badge_ever_embedded c = true →
         ∃ c', run_badges calls tbl !! k = Some c'
               ∧ Badge.pledge_badge_ever_embedded c' = true.
Proof.
  revert tbl. induction calls as [|call rest IH]; intros tbl.
  - split; [done|]. intros c Hc Hever. eauto.
  - cbn. destruct (IH (badge_after (badge_call should_add_badge
                         should_remove_badge embed_impl remove_impl call tbl)))
      as [IHdom IHever].
    destruct (badge_call_row call tbl k) as [Hsame|(at_ & Hsome & Hrow)].
    + rewrite Hsame in IHdom, IHever. split; [done|]. exact IHever.
    + split.
      * rewrite <- IHdom, Hrow. split; [done|discriminate].
      * intros c _ _. by apply (IHever (Badge.mk at_ true)).
Qed.
End BadgeFacts.

Lemma embed_badge_outcomes_witness :
  let r := embed_badge (Sample.always true "ok") Sample.badge_ok Sample.now
             Sample.org Sample.repo Sample.t1_record false Sample.badges in
  badge_outcome r = inr true
  ∧ badge_after r !! 2 = Some (Badge.mk (Some Sample.now) true)
  ∧ badge_after r !! 3 = Some (Badge.mk (Some 40) true).
Proof.
  pose proof (embed_badge_outcomes (Sample.always true "ok") Sample.badge_ok
    Sample.now Sample.org Sample.repo Sample.t1_record false Sample.badges)
    as (_ & _ & H & _).
  destruct (H eq_refl eq_refl) as (Hout & Hrow & Hothers).
  cbv zeta. split; [exact Hout|]. split; [exact Hrow|].
  exact (Hothers 3 ltac:(cbn; lia)).
Defined.

Lemma remove_badge_outcomes_witness :
  let r := remove_badge (Sample.always true "ok") Sample.badge_ok
             Sample.org Sample.repo Sample.t3_record false Sample.badges in
  badge_outcome r = inr false
  ∧ badge_after r !! 3 = Some (Badge.mk None true).
Proof.
  pose proof (remove_badge_outcomes (Sample.always true "ok") Sample.badge_ok
    Sample.org Sample.repo Sample.t3_record false Sample.badges)
    as (_ & _ & H).
  destruct (H eq_refl eq_refl) as (Hout & Hrow & _).
  cbv zeta. split; [exact Hout|exact Hrow].
Defined.

Lemma badge_ever_embedded_sticks_witness :
  ∃ c', badge_run (Sample.always true "ok") (Sample.always true "ok")
          Sample.badge_ok Sample.badge_ok
          [RemoveBadge Sample.org Sample.repo Sample.t3_record false;
           EmbedBadge Sample.now Sample.org Sample.repo Sample.t1_record true;
           RemoveBadge Sample.org Sample.repo Sample.t1_record true]
          Sample.badges !! 3 = Some c'
        ∧ Badge.pledge_badge_ever_embedded c' = true.
Proof.
  eapply (proj2 (badge_ever_embedded_sticks (Sample.always true "ok")
    (Sample.always true "ok") Sample.badge_ok Sample.badge_ok _ Sample.badges 3));
    reflexivity.
Defined.
